(** * A shallow embedding of the Go package [uci] (clfs/chess2).

    The repository holds several revisions of the package:
    - [src/uci/option.go] + [src/uci/client.go] (Option with integer
      [Min]/[Max], fire-and-forget commands written with [fmt.Fprint*]);
    - [src/uci/uci.go] (Option with string [Min]/[Max], commands sent
      through [Client.send]);
    - [src/unnamed/part_000] ([Search] request type, channel-returning [Go]).
    Each revision is modelled in a module of its own.

    Text is a Rocq [string] (a list of bytes).  The wire format is 7-bit
    ASCII, and on such text Go's [unicode.IsSpace] is the set of the six
    ASCII white-space bytes below, so [fields] is [strings.Fields] /
    [bytes.Fields]. *)

From Stdlib Require Import String Ascii List ZArith Bool Lia.
From Stdlib Require Import Numbers.DecimalString Numbers.DecimalPos.
Import ListNotations.
Open Scope string_scope.

(** ** Library functions of Go used by the package *)
Module GoLib.

(** [unicode.IsSpace] restricted to 7-bit bytes. *)
Definition is_space (c : ascii) : bool :=
  match nat_of_ascii c with
  | 9 | 10 | 11 | 12 | 13 | 32 => true
  | _ => false
  end.

(** [strings.Fields]: the maximal runs of non-space bytes, in order.
    [cur] is the token being read. *)
Fixpoint fields_from (s : string) (cur : string) : list string :=
  match s with
  | EmptyString => if String.eqb cur "" then [] else [cur]
  | String c s' =>
      if is_space c
      then if String.eqb cur "" then fields_from s' "" else cur :: fields_from s' ""
      else fields_from s' (cur ++ String c "")
  end.

Definition fields (s : string) : list string := fields_from s "".

(** [strings.Join]. *)
Fixpoint join (sep : string) (l : list string) : string :=
  match l with
  | [] => ""
  | [x] => x
  | x :: xs => x ++ sep ++ join sep xs
  end.

(** [strings.HasPrefix] and [strings.TrimPrefix]. *)
Definition has_prefix (s pre : string) : bool := String.prefix pre s.

Definition trim_prefix (s pre : string) : string :=
  if has_prefix s pre then substring (String.length pre) (String.length s) s else s.

(** [strconv.Atoi] on a 64-bit platform: an optional sign, then one or
    more decimal digits, with a value in the range of [int]. *)
Definition digit_val (c : ascii) : option Z :=
  let n := nat_of_ascii c in
  if (48 <=? n)%nat && (n <=? 57)%nat then Some (Z.of_nat (n - 48)) else None.

Fixpoint digits_val (s : string) (acc : Z) : option Z :=
  match s with
  | EmptyString => Some acc
  | String c s' =>
      match digit_val c with
      | Some d => digits_val s' (acc * 10 + d)%Z
      | None => None
      end
  end.

Definition int_min : Z := (- 2 ^ 63)%Z.
Definition int_max : Z := (2 ^ 63 - 1)%Z.

Definition atoi (s : string) : option Z :=
  let '(neg, body) :=
    match s with
    | String "-" b => (true, b)
    | String "+" b => (false, b)
    | _ => (false, s)
    end in
  match body with
  | EmptyString => None
  | _ =>
      match digits_val body 0 with
      | None => None
      | Some v =>
          let n := if neg then (- v)%Z else v in
          if (int_min <=? n)%Z && (n <=? int_max)%Z then Some n else None
      end
  end.

(** [%d] of [fmt] on an integer. *)
Definition itoa (z : Z) : string := NilEmpty.string_of_int (Z.to_int z).

(** A [string] as Go's text of newline-separated lines: the pieces between
    the ['\n'] bytes (a trailing newline ends the last line). *)
Definition newline : string := String (ascii_of_nat 10) "".

Fixpoint lines_from (s : string) (cur : string) : list string :=
  match s with
  | EmptyString => if String.eqb cur "" then [] else [cur]
  | String c s' =>
      if Ascii.eqb c (ascii_of_nat 10) then cur :: lines_from s' ""
      else lines_from s' (cur ++ String c "")
  end.

Definition lines (s : string) : list string := lines_from s "".

(** [bytes.IndexByte(s, c)], [-1] being [None]. *)
Fixpoint index_byte (c : ascii) (s : string) : option nat :=
  match s with
  | EmptyString => None
  | String d s' => if Ascii.eqb d c then Some 0%nat else option_map S (index_byte c s')
  end.

(** The slices [s[:n]] and [s[n:]]. *)
Fixpoint str_take (n : nat) (s : string) : string :=
  match n, s with
  | 0%nat, _ | _, EmptyString => EmptyString
  | S n', String c s' => String c (str_take n' s')
  end.

Fixpoint str_drop (n : nat) (s : string) : string :=
  match n, s with
  | 0%nat, _ => s
  | _, EmptyString => EmptyString
  | S n', String _ s' => str_drop n' s'
  end.

(** [bufio]'s [dropCR]: a final ['\r'] is removed. *)
Definition dropCR (s : string) : string :=
  match String.length s with
  | 0%nat => s
  | S m =>
      match String.get m s with
      | Some c => if Ascii.eqb c (ascii_of_nat 13) then str_take m s else s
      | None => s
      end
  end.

End GoLib.
Import GoLib.

(** ** [src/uci/option.go]: [Option.UnmarshalText] with integer bounds *)
Module OptionGo.

Record Option := mkOption {
  Name : string;
  Type_ : string;
  Default : string;
  Min : Z;
  Max : Z;
  Vars : list string
}.

(** The zero value [var opt Option]. *)
Definition zero : Option := mkOption "" "" "" 0%Z 0%Z [].

(** The error value of [fmt.Errorf("todo")]. *)
Definition todo : string := "todo".

Definition CheckOptionType : string := "check".
Definition SpinOptionType : string := "spin".
Definition ComboOptionType : string := "combo".
Definition ButtonOptionType : string := "button".
Definition StringOptionType : string := "string".

(** The first loop: tokens are appended to [acc] until the literal
    [type]; returns the accumulated tokens and the remaining fields, which
    start at [type] (or are empty). *)
Fixpoint name_scan (fs : list string) : list string * list string :=
  match fs with
  | [] => ([], [])
  | f :: fs' =>
      if String.eqb f "type" then ([], fs)
      else let '(acc, rest) := name_scan fs' in (f :: acc, rest)
  end.

(** One iteration of the second loop, [cur, nxt := fields[pos], fields[pos+1]];
    [None] is the [return fmt.Errorf("todo")] of a failed [strconv.Atoi]. *)
Definition walk_step (o : Option) (cur nxt : string) : option Option :=
  if String.eqb cur "type" then
    Some (mkOption o.(Name) nxt o.(Default) o.(Min) o.(Max) o.(Vars))
  else if String.eqb cur "default" then
    Some (mkOption o.(Name) o.(Type_) nxt o.(Min) o.(Max) o.(Vars))
  else if String.eqb cur "min" then
    match atoi nxt with
    | Some m => Some (mkOption o.(Name) o.(Type_) o.(Default) m o.(Max) o.(Vars))
    | None => None
    end
  else if String.eqb cur "max" then
    match atoi nxt with
    | Some m => Some (mkOption o.(Name) o.(Type_) o.(Default) o.(Min) m o.(Vars))
    | None => None
    end
  else if String.eqb cur "var" then
    Some (mkOption o.(Name) o.(Type_) o.(Default) o.(Min) o.(Max) (o.(Vars) ++ [nxt]))
  else Some o.

(** [for ; pos < len(fields)-1; pos++]: every position but the last is
    visited, the cursor moving by one. *)
Fixpoint walk (o : Option) (fs : list string) : Option * option string :=
  match fs with
  | cur :: ((nxt :: _) as tl) =>
      match walk_step o cur nxt with
      | Some o' => walk o' tl
      | None => (o, Some todo)
      end
  | _ => (o, None)
  end.

(** [func (o *Option) UnmarshalText(text []byte) error]: the receiver after
    the call, and the returned error ([None] for [nil]). *)
Definition UnmarshalText (o : Option) (text : string) : Option * option string :=
  let fs := fields text in
  if (List.length fs <? 5)%nat then (o, Some todo) else
  match fs with
  | f0 :: f1 :: rest =>
      if negb (String.eqb f0 "option") then (o, Some todo)
      else if negb (String.eqb f1 "name") then (o, Some todo)
      else
        let '(acc, tl) := name_scan rest in
        walk (mkOption (join " " acc) o.(Type_) o.(Default) o.(Min) o.(Max) o.(Vars)) tl
  | _ => (o, Some todo)
  end.

End OptionGo.

(** ** The byte streams of a [Client]

    The read side is the [io.Reader] [c.r] and the [bufio.Scanner] every
    reading method puts over it.  A [reader] is the data its successive
    [Read] calls have for the caller, in order, then how it ends
    ([io.EOF], or a read error).  A [Read] into [n] bytes of room returns
    the next piece whole when it fits, or its first [n] bytes, the rest
    being kept for the next [Read]; once the pieces are used up every
    [Read] returns [0] and the end.  The end is returned by a [Read] of its
    own ([bytes.Reader], pipes, files), or, when [r_end_with_data] is set,
    together with the last bytes, as [io.Reader] allows.

    The write side is the text written so far and, for a broken [c.w], the
    error every write returns. *)
Module Stream.

Inductive stream_end := EOF | ReadErr (e : string).

Record reader := Reader {
  r_chunks : list string;
  r_end : stream_end;
  r_end_with_data : bool
}.

(** A reader that reports its end on a [Read] of its own. *)
Definition mkReader (chunks : list string) (e : stream_end) : reader := Reader chunks e false.

Definition len (s : string) : Z := Z.of_nat (String.length s).

(** [rd.Read(p)] with [len(p) = n]: the bytes read, the error, and the
    reader afterwards. *)
Definition read (rd : reader) (n : Z) : string * option stream_end * reader :=
  match rd.(r_chunks) with
  | [] => ("", Some rd.(r_end), rd)
  | ch :: chs =>
      if (len ch <=? n)%Z then
        (ch,
         (if rd.(r_end_with_data) then
            match chs with [] => Some rd.(r_end) | _ :: _ => None end
          else None),
         Reader chs rd.(r_end) rd.(r_end_with_data))
      else (str_take (Z.to_nat n) ch, None,
            Reader (str_drop (Z.to_nat n) ch :: chs) rd.(r_end) rd.(r_end_with_data))
  end.

(** The bytes [rd] has left. *)
Definition reader_bytes (rd : reader) : nat :=
  fold_right (fun ch n => (String.length ch + n)%nat) 0%nat rd.(r_chunks).

(** *** [bufio.Scanner] with its default split function [ScanLines] *)

(** The errors a scanner records: [io.EOF] and the read errors of the
    reader, [ErrTooLong], [io.ErrNoProgress]. *)
Inductive scan_error := ErrEOF | ErrRead (m : string) | ErrTooLong | ErrNoProgress.

Definition of_end (e : stream_end) : scan_error :=
  match e with
  | EOF => ErrEOF
  | ReadErr m => ErrRead m
  end.

(** The fields of [bufio.Scanner] that [Scan] uses: [s.r], the unread
    bytes [s.buf[s.start:s.end]], [s.start], [len(s.buf)] and [s.err]
    ([s.end] is [s.start] plus the length of [s_buf]). *)
Record Scanner := mkScanner {
  s_r : reader;
  s_buf : string;
  s_start : Z;
  s_size : Z;
  s_err : option scan_error
}.

(** [bufio.NewScanner(r)]: no buffer yet. *)
Definition NewScanner (rd : reader) : Scanner := mkScanner rd "" 0 0 None.

Definition startBufSize : Z := 4096.
Definition MaxScanTokenSize : Z := 65536.
Definition maxConsecutiveEmptyReads : nat := 100.

(** [s.setErr(err)]: the first error other than [io.EOF] is kept. *)
Definition setErr (s : Scanner) (e : scan_error) : Scanner :=
  match s.(s_err) with
  | None | Some ErrEOF => mkScanner s.(s_r) s.(s_buf) s.(s_start) s.(s_size) (Some e)
  | Some _ => s
  end.

(** [bufio.ScanLines(data, atEOF)]: the advance and the token. *)
Definition ScanLines (data : string) (atEOF : bool) : nat * option string :=
  if atEOF && String.eqb data "" then (0%nat, None) else
  match index_byte (ascii_of_nat 10) data with
  | Some i => (S i, Some (dropCR (str_take i data)))
  | None => if atEOF then (String.length data, Some (dropCR data)) else (0%nat, None)
  end.

(** The inner loop [for loop := 0; ; { n, err := s.r.Read(s.buf[s.end:]) ... }]:
    [left] is the number of empty reads still allowed. *)
Fixpoint read_loop (left : nat) (s : Scanner) : Scanner :=
  let room := (s.(s_size) - (s.(s_start) + len s.(s_buf)))%Z in
  let '(p, e, rd) := read s.(s_r) room in
  let s1 := mkScanner rd (s.(s_buf) ++ p) s.(s_start) s.(s_size) s.(s_err) in
  match e with
  | Some e => setErr s1 (of_end e)
  | None =>
      if (0 <? String.length p)%nat then s1
      else match left with
           | 0%nat => setErr s1 ErrNoProgress
           | S l => read_loop l s1
           end
  end.

(** The outer loop of [s.Scan()]: the token ([None] when [Scan] returns
    [false]) and the scanner afterwards.  Every round that does not return
    reads at least one byte or records an error, after which the next
    round returns, so [Scan] below gives enough rounds. *)
Fixpoint scan_loop (fuel : nat) (s : Scanner) : option string * Scanner :=
  match fuel with
  | 0%nat => (None, s)
  | S fuel' =>
      let atEOF := match s.(s_err) with Some _ => true | None => false end in
      let '(adv, tok) :=
        if (0 <? String.length s.(s_buf))%nat || atEOF then ScanLines s.(s_buf) atEOF
        else (0%nat, None) in
      match tok with
      | Some t =>
          (Some t, mkScanner s.(s_r) (str_drop adv s.(s_buf)) (s.(s_start) + Z.of_nat adv)%Z
                     s.(s_size) s.(s_err))
      | None =>
          if atEOF then (None, mkScanner s.(s_r) "" 0 s.(s_size) s.(s_err))
          else
            let n := len s.(s_buf) in
            let start :=
              if (0 <? s.(s_start))%Z
                 && ((s.(s_start) + n =? s.(s_size))%Z || (Z.quot s.(s_size) 2 <? s.(s_start))%Z)
              then 0%Z else s.(s_start) in
            if (start + n =? s.(s_size))%Z then
              if (MaxScanTokenSize <=? s.(s_size))%Z then
                (None, setErr (mkScanner s.(s_r) s.(s_buf) start s.(s_size) s.(s_err)) ErrTooLong)
              else
                let size := Z.min (if (s.(s_size) =? 0)%Z then startBufSize else s.(s_size) * 2)
                              MaxScanTokenSize in
                scan_loop fuel'
                  (read_loop maxConsecutiveEmptyReads (mkScanner s.(s_r) s.(s_buf) 0 size s.(s_err)))
            else
              scan_loop fuel'
                (read_loop maxConsecutiveEmptyReads (mkScanner s.(s_r) s.(s_buf) start s.(s_size) s.(s_err)))
      end
  end.

(** [s.Scan()] and [s.Text()]: [Some] text when [Scan] returns [true]. *)
Definition Scan (s : Scanner) : option string * Scanner :=
  scan_loop (S (S (reader_bytes s.(s_r)))) s.

(** [s.Err()]. *)
Definition Err (s : Scanner) : option string :=
  match s.(s_err) with
  | None | Some ErrEOF => None
  | Some (ErrRead m) => Some m
  | Some ErrTooLong => Some "bufio.Scanner: token too long"
  | Some ErrNoProgress => Some "multiple Read calls return no data or error"
  end.

(** [for s.Scan() { ... s.Text() ... }] over a new scanner: the lines
    [Scan] yields, each with the scanner right after it, then the scanner
    after the [Scan] that returns [false].  A loop that leaves early at a
    line goes on with the scanner paired with that line; Go's scanner is
    computed up to that point only, and its later states play no part.
    A [Scan] that returns a line consumes at least one byte. *)
Fixpoint scan_all (fuel : nat) (s : Scanner) : list (string * Scanner) * Scanner :=
  match fuel with
  | 0%nat => ([], s)
  | S f =>
      match Scan s with
      | (Some t, s') => let '(l, fin) := scan_all f s' in ((t, s') :: l, fin)
      | (None, s') => ([], s')
      end
  end.

Definition scanned (rd : reader) : list (string * Scanner) * Scanner :=
  scan_all (S (reader_bytes rd)) (NewScanner rd).

(** [s.Err()] for a stream end. *)
Definition scan_err (e : stream_end) : option string :=
  match e with
  | EOF => None
  | ReadErr m => Some m
  end.

Record writer := mkWriter { w_out : string; w_err : option string }.

(** [w.Write(p)]: appends [p], or returns the writer's error. *)
Definition write (w : writer) (p : string) : writer * option string :=
  match w.(w_err) with
  | Some e => (w, Some e)
  | None => (mkWriter (w.(w_out) ++ p) None, None)
  end.

(** [fmt.Fprintf] / [fmt.Fprintln] with the error discarded. *)
Definition fprint (w : writer) (p : string) : writer := fst (write w p).

End Stream.
Import Stream.

(** [strings.TrimSpace] on 7-bit text. *)
Fixpoint trim_left (s : string) : string :=
  match s with
  | String c s' => if is_space c then trim_left s' else s
  | EmptyString => EmptyString
  end.

Definition rev_string (s : string) : string :=
  string_of_list_ascii (List.rev (list_ascii_of_string s)).

Definition trim_space (s : string) : string :=
  rev_string (trim_left (rev_string (trim_left s))).

(** ** [src/uci/uci.go] *)
Module UciGo.

Record Option := mkOption {
  Name : string;
  Type_ : string;
  Default : string;
  Min : string;
  Max : string;
  Vars : list string
}.

Definition zero : Option := mkOption "" "" "" "" "" [].

Definition todo : string := "todo".

Definition CheckOptionType : string := "check".
Definition SpinOptionType : string := "spin".
Definition ComboOptionType : string := "combo".
Definition ButtonOptionType : string := "button".
Definition StringOptionType : string := "string".

(** The first loop writes each token and a space into [nameBuf] until the
    literal [type]; returns the buffer and the remaining fields. *)
Fixpoint name_scan (fs : list string) : string * list string :=
  match fs with
  | [] => ("", [])
  | f :: fs' =>
      if String.eqb f "type" then ("", fs)
      else let '(buf, rest) := name_scan fs' in (f ++ " " ++ buf, rest)
  end.

(** One iteration of the key/value loop; no case fails in this revision. *)
Definition walk_step (o : Option) (cur nxt : string) : Option :=
  if String.eqb cur "type" then mkOption o.(Name) nxt o.(Default) o.(Min) o.(Max) o.(Vars)
  else if String.eqb cur "default" then mkOption o.(Name) o.(Type_) nxt o.(Min) o.(Max) o.(Vars)
  else if String.eqb cur "min" then mkOption o.(Name) o.(Type_) o.(Default) nxt o.(Max) o.(Vars)
  else if String.eqb cur "max" then mkOption o.(Name) o.(Type_) o.(Default) o.(Min) nxt o.(Vars)
  else if String.eqb cur "var" then
    mkOption o.(Name) o.(Type_) o.(Default) o.(Min) o.(Max) (o.(Vars) ++ [nxt])
  else o.

Fixpoint walk (o : Option) (fs : list string) : Option :=
  match fs with
  | cur :: ((nxt :: _) as tl) => walk (walk_step o cur nxt) tl
  | _ => o
  end.

Definition UnmarshalText (o : Option) (text : string) : Option * option string :=
  let fs := fields text in
  if (List.length fs <? 5)%nat then (o, Some todo) else
  match fs with
  | f0 :: f1 :: rest =>
      if negb (String.eqb f0 "option") then (o, Some todo)
      else if negb (String.eqb f1 "name") then (o, Some todo)
      else
        let '(buf, tl) := name_scan rest in
        (walk (mkOption (trim_space buf) o.(Type_) o.(Default) o.(Min) o.(Max) o.(Vars)) tl, None)
  | _ => (o, Some todo)
  end.

(** [type Result struct { // todo }]. *)
Record Result := mkResult {}.

Record Client := mkClient {
  r : reader;
  w : writer;
  CName : string;    (* field [Name] *)
  Author : string;
  Options : list Option;
  CResult : Result   (* field [Result] *)
}.

Definition NewClient (rd : reader) (wr : writer) : Client :=
  mkClient rd wr "" "" [] mkResult.

Definition set_r (c : Client) (rd : reader) : Client :=
  mkClient rd c.(w) c.(CName) c.(Author) c.(Options) c.(CResult).
Definition set_w (c : Client) (wr : writer) : Client :=
  mkClient c.(r) wr c.(CName) c.(Author) c.(Options) c.(CResult).
Definition set_name (c : Client) (n : string) : Client :=
  mkClient c.(r) c.(w) n c.(Author) c.(Options) c.(CResult).
Definition set_author (c : Client) (a : string) : Client :=
  mkClient c.(r) c.(w) c.(CName) a c.(Options) c.(CResult).
Definition add_option (c : Client) (o : Option) : Client :=
  mkClient c.(r) c.(w) c.(CName) c.(Author) (c.(Options) ++ [o]) c.(CResult).

(** [func (c *Client) send(s string) error]. *)
Definition send (c : Client) (s : string) : Client * option string :=
  let '(wr, err) := write c.(w) (s ++ newline) in (set_w c wr, err).

(** The [outer] loop of [UCI] over the lines of its scanner: the client
    it updates, the scanner where the method returns, and the error. *)
Fixpoint uci_loop (c : Client) (ls : list (string * Scanner)) (fin : Scanner)
  : Client * Scanner * option string :=
  match ls with
  | [] => (c, fin, Err fin)
  | (line, s) :: ls' =>
      if has_prefix line "id name " then
        uci_loop (set_name c (trim_prefix line "id name ")) ls' fin
      else if has_prefix line "id author " then
        uci_loop (set_author c (trim_prefix line "id author ")) ls' fin
      else if has_prefix line "option " then
        match UnmarshalText zero line with
        | (opt, None) => uci_loop (add_option c opt) ls' fin
        | (_, Some err) => (c, s, Some err)
        end
      else if String.eqb line "uciok" then (c, s, Err s)
      else uci_loop c ls' fin
  end.

(** [func (c *Client) UCI() error]: the scanner is dropped on return, and
    [c.r] is left where it stopped reading. *)
Definition UCI (c : Client) : Client * option string :=
  match send c "uci" with
  | (c1, Some err) => (c1, Some err)
  | (c1, None) =>
      let '(ls, fin) := scanned c1.(r) in
      let '(c2, s, err) := uci_loop c1 ls fin in
      (set_r c2 s.(s_r), err)
  end.

(** [func (c *Client) Debug(on bool) error]. *)
Definition Debug (c : Client) (on : bool) : Client * option string :=
  if on then send c "debug on" else send c "debug off".

(** [func (c *Client) IsReady() error]. *)
Fixpoint isready_loop (ls : list (string * Scanner)) (fin : Scanner) : Scanner * option string :=
  match ls with
  | [] => (fin, Err fin)
  | (l, s) :: ls' => if String.eqb l "readyok" then (s, None) else isready_loop ls' fin
  end.

Definition IsReady (c : Client) : Client * option string :=
  match send c "isready" with
  | (c1, Some err) => (c1, Some err)
  | (c1, None) =>
      let '(ls, fin) := scanned c1.(r) in
      let '(s, err) := isready_loop ls fin in
      (set_r c1 s.(s_r), err)
  end.

(** [func (c *Client) SetOption(name, value string) error]: [return nil // todo]. *)
Definition SetOption (c : Client) (name value : string) : Client * option string := (c, None).

Record RegisterParams := mkRegisterParams { Later : bool; RName : string; Code : string }.

(** [func (c *Client) Register(r RegisterParams) error]. *)
Definition Register (c : Client) (rp : RegisterParams) : Client * option string :=
  if rp.(Later) then send c "register later"
  else send c ("register name " ++ rp.(RName) ++ " code " ++ rp.(Code)).

Definition UCINewGame (c : Client) : Client * option string := send c "ucinewgame".

Record PositionParams := mkPositionParams {}.
Record GoParams := mkGoParams {}.

(** [Position] and [Go]: [return nil // todo]. *)
Definition Position (c : Client) (p : PositionParams) : Client * option string := (c, None).
Definition Go (c : Client) (p : GoParams) : Client * option string := (c, None).

Definition Stop (c : Client) : Client * option string := send c "stop".
Definition PonderHit (c : Client) : Client * option string := send c "ponderhit".
Definition Quit (c : Client) : Client * option string := send c "quit".

End UciGo.

(** [fmt.Fprintln(w, s)] and [fmt.Fprintf(w, s)] with the error discarded. *)
Definition fprintln (w : writer) (s : string) : writer := fprint w (s ++ newline).

(** [time.Duration] is an [int64] count of nanoseconds;
    [d.Milliseconds()] is [int64(d) / 1e6], rounding toward zero. *)
Definition Duration := Z.
Definition Milliseconds (d : Duration) : Z := Z.quot d 1000000.

(** ** [src/uci/client.go] *)
Module ClientGo.

Record Result := mkResult {}.

Record Client := mkClient {
  r : reader;
  w : writer;
  CName : string;    (* field [Name] *)
  Author : string;
  Options : list OptionGo.Option;
  CResult : Result   (* field [Result] *)
}.

Definition NewClient (rd : reader) (wr : writer) : Client :=
  mkClient rd wr "" "" [] mkResult.

Definition set_r (c : Client) (rd : reader) : Client :=
  mkClient rd c.(w) c.(CName) c.(Author) c.(Options) c.(CResult).
Definition set_w (c : Client) (wr : writer) : Client :=
  mkClient c.(r) wr c.(CName) c.(Author) c.(Options) c.(CResult).
Definition set_name (c : Client) (n : string) : Client :=
  mkClient c.(r) c.(w) n c.(Author) c.(Options) c.(CResult).
Definition set_author (c : Client) (a : string) : Client :=
  mkClient c.(r) c.(w) c.(CName) a c.(Options) c.(CResult).
Definition add_option (c : Client) (o : OptionGo.Option) : Client :=
  mkClient c.(r) c.(w) c.(CName) c.(Author) (c.(Options) ++ [o]) c.(CResult).

(** The [outer] loop of [UCI]. *)
Fixpoint uci_loop (c : Client) (ls : list (string * Scanner)) (fin : Scanner)
  : Client * Scanner * option string :=
  match ls with
  | [] => (c, fin, Err fin)
  | (line, s) :: ls' =>
      if has_prefix line "id name " then
        uci_loop (set_name c (trim_prefix line "id name ")) ls' fin
      else if has_prefix line "id author " then
        uci_loop (set_author c (trim_prefix line "id author ")) ls' fin
      else if has_prefix line "option " then
        match OptionGo.UnmarshalText OptionGo.zero line with
        | (opt, None) => uci_loop (add_option c opt) ls' fin
        | (_, Some err) => (c, s, Some err)
        end
      else if String.eqb line "uciok" then (c, s, Err s)
      else uci_loop c ls' fin
  end.

(** [func (c *Client) UCI() error]. *)
Definition UCI (c : Client) : Client * option string :=
  let c1 := set_w c (fprintln c.(w) "uci") in
  let '(ls, fin) := scanned c1.(r) in
  let '(c2, s, err) := uci_loop c1 ls fin in
  (set_r c2 s.(s_r), err).

(** [func (c *Client) Debug(on bool)]. *)
Definition Debug (c : Client) (on : bool) : Client :=
  let w1 := if on then fprintln c.(w) "debug on" else c.(w) in
  set_w c (fprintln w1 "debug off").

(** [func (c *Client) IsReady() error]. *)
Fixpoint isready_loop (ls : list (string * Scanner)) (fin : Scanner) : Scanner * option string :=
  match ls with
  | [] => (fin, Err fin)
  | (l, s) :: ls' => if String.eqb l "readyok" then (s, None) else isready_loop ls' fin
  end.

Definition IsReady (c : Client) : Client * option string :=
  let c1 := set_w c (fprintln c.(w) "isready") in
  let '(ls, fin) := scanned c1.(r) in
  let '(s, err) := isready_loop ls fin in
  (set_r c1 s.(s_r), err).

(** [func (c *Client) PositionFEN(fen string, moves []string)]. *)
Definition PositionFEN (c : Client) (fen : string) (moves : list string) : Client :=
  let w1 := fprint c.(w) ("position fen " ++ fen) in
  let w2 := if (0 <? List.length moves)%nat then fprint w1 (" moves " ++ join " " moves) else w1 in
  set_w c (fprint w2 newline).

(** [func (c *Client) PositionStartPos(moves []string)]. *)
Definition PositionStartPos (c : Client) (moves : list string) : Client :=
  let w1 := fprintln c.(w) "position startpos" in
  let w2 := if (0 <? List.length moves)%nat then fprint w1 (" moves " ++ join " " moves) else w1 in
  set_w c (fprint w2 newline).

Record GoParameters := mkGoParameters {
  SearchMoves : list string;
  Ponder : bool;
  Infinite : bool;
  Mate : Z;
  MoveTime : Duration;
  WhiteTime : Duration;
  BlackTime : Duration;
  WhiteIncrement : Duration;
  BlackIncrement : Duration;
  MovesToGo : Z;
  Depth : Z;
  Nodes : Z
}.

(** The text [Go] writes, in the order of its [fmt.Fprintf] calls. *)
Definition go_text (p : GoParameters) : string :=
  "go"
  ++ (if p.(Ponder) then " ponder" else "")
  ++ (if p.(Infinite) then " infinite" else "")
  ++ (if (0 <? p.(Mate))%Z then " mate " ++ itoa p.(Mate) else "")
  ++ (if (0 <? p.(MoveTime))%Z then " movetime " ++ itoa (Milliseconds p.(MoveTime)) else "")
  ++ (if (0 <? p.(WhiteTime))%Z then " wtime " ++ itoa (Milliseconds p.(WhiteTime)) else "")
  ++ (if (0 <? p.(BlackTime))%Z then " btime " ++ itoa (Milliseconds p.(BlackTime)) else "")
  ++ (if (0 <? p.(WhiteIncrement))%Z then " winc " ++ itoa (Milliseconds p.(WhiteIncrement)) else "")
  ++ (if (0 <? p.(BlackIncrement))%Z then " binc " ++ itoa (Milliseconds p.(BlackIncrement)) else "")
  ++ (if (0 <? p.(MovesToGo))%Z then " movestogo " ++ itoa p.(MovesToGo) else "")
  ++ (if (0 <? p.(Depth))%Z then " depth " ++ itoa p.(Depth) else "")
  ++ (if (0 <? p.(Nodes))%Z then " nodes " ++ itoa p.(Nodes) else "")
  ++ (if (0 <? List.length p.(SearchMoves))%nat
      then " searchmoves " ++ join " " p.(SearchMoves) else "").

(** [func (c *Client) Go(p GoParameters)]: no newline is written. *)
Definition Go (c : Client) (p : GoParameters) : Client := set_w c (fprint c.(w) (go_text p)).

(** [func (c *Client) SetOption(name, value string)]: [Fprintf] with no
    newline. *)
Definition SetOption (c : Client) (name value : string) : Client :=
  if String.eqb value "" then set_w c (fprint c.(w) ("setoption name " ++ name))
  else set_w c (fprint c.(w) ("setoption name " ++ name ++ " value " ++ value)).

Definition Register (c : Client) (name code : string) : Client :=
  set_w c (fprint c.(w) ("register name " ++ name ++ " code " ++ code ++ newline)).
Definition RegisterLater (c : Client) : Client := set_w c (fprintln c.(w) "register later").
Definition UCINewGame (c : Client) : Client := set_w c (fprintln c.(w) "ucinewgame").
Definition Stop (c : Client) : Client := set_w c (fprintln c.(w) "stop").
Definition PonderHit (c : Client) : Client := set_w c (fprintln c.(w) "ponderhit").
Definition Quit (c : Client) : Client := set_w c (fprintln c.(w) "quit").

End ClientGo.

(** ** [src/unnamed/part_000] *)
Module Part000.

(** An unbuffered Go channel as its consumer sees it: the values sent on
    it, in order, and whether it has been closed. *)
Record chan (A : Type) := mkChan { ch_sent : list A; ch_closed : bool }.
Arguments mkChan {A} _ _.
Arguments ch_sent {A} _.
Arguments ch_closed {A} _.

(** [make(chan A)]. *)
Definition make_chan {A : Type} : chan A := mkChan [] false.

Record Client := mkClient { r : reader; w : writer }.

Definition NewClient (rd : reader) (wr : writer) : Client := mkClient rd wr.

(** [func (c *Client) Debug(on bool)]. *)
Definition Debug (c : Client) (on : bool) : Client :=
  let w1 := if on then fprintln c.(w) "debug on" else c.(w) in
  mkClient c.(r) (fprintln w1 "debug off").

(** [func (c *Client) PositionFEN(fen string, moves []string)]. *)
Definition PositionFEN (c : Client) (fen : string) (moves : list string) : Client :=
  let w1 := fprint c.(w) ("position fen " ++ fen) in
  let w2 := if (0 <? List.length moves)%nat then fprint w1 (" moves " ++ join " " moves) else w1 in
  mkClient c.(r) (fprint w2 newline).

(** [func (c *Client) PositionStartPos(moves []string)]. *)
Definition PositionStartPos (c : Client) (moves : list string) : Client :=
  let w1 := fprintln c.(w) "position startpos" in
  let w2 := if (0 <? List.length moves)%nat then fprint w1 (" moves " ++ join " " moves) else w1 in
  mkClient c.(r) (fprint w2 newline).

Record Search := mkSearch {
  SearchMoves : list string;
  Ponder : bool;
  Infinite : bool;
  Mate : Z;
  MoveTime : Duration;
  WhiteTime : Duration;
  BlackTime : Duration;
  WhiteIncrement : Duration;
  BlackIncrement : Duration;
  MovesToGo : Z;
  Depth : Z;
  Nodes : Z
}.

(** [func (s Search) String() string].  A [time.Duration] formatted with
    [%d] is its [int64] count of nanoseconds. *)
Definition String_ (s : Search) : string :=
  "go"
  ++ (if s.(Ponder) then " ponder" else "")
  ++ (if s.(Infinite) then " infinite" else "")
  ++ (if negb (s.(Mate) =? 0)%Z then " mate " ++ itoa s.(Mate) else "")
  ++ (if negb (s.(MoveTime) =? 0)%Z then " movetime " ++ itoa s.(MoveTime) else "")
  ++ (if negb (s.(WhiteTime) =? 0)%Z then " wtime " ++ itoa s.(WhiteTime) else "")
  ++ (if negb (s.(BlackTime) =? 0)%Z then " btime " ++ itoa s.(BlackTime) else "")
  ++ (if negb (s.(WhiteIncrement) =? 0)%Z then " winc " ++ itoa s.(WhiteIncrement) else "")
  ++ (if negb (s.(BlackIncrement) =? 0)%Z then " binc " ++ itoa s.(BlackIncrement) else "")
  ++ (if negb (s.(MovesToGo) =? 0)%Z then " movestogo " ++ itoa s.(MovesToGo) else "")
  ++ (if negb (s.(Depth) =? 0)%Z then " depth " ++ itoa s.(Depth) else "")
  ++ (if negb (s.(Nodes) =? 0)%Z then " nodes " ++ itoa s.(Nodes) else "")
  ++ (if (0 <? List.length s.(SearchMoves))%nat
      then "searchmoves " ++ join " " s.(SearchMoves) else "").

Record MateInfo := mkMateInfo { Found : bool; MovesUntil : Z }.

Record Score := mkScore {
  CP : Z;
  SMate : MateInfo;  (* field [Mate] *)
  LowerBound : bool;
  UpperBound : bool
}.

Record Info := mkInfo {
  IDepth : Z;  (* field [Depth] *)
  SelDepth : Z;
  Time : Duration;
  INodes : Z;  (* field [Nodes] *)
  PV : list string;
  MultiPV : Z;
  IScore : Score;  (* field [Score] *)
  CurrMove : string;
  CurrMoveNumber : Z;
  HashFull : Z;
  NPS : Z;
  TBHits : Z;
  CPULoad : Z;
  IString : string;  (* field [String] *)
  Refutation : list string;
  CurrLine : list string
}.

Record BestMove := mkBestMove { Move : string; BPonder : string (* field [Ponder] *) }.

(** The scanner loop of [Go]: reads lines until one equals ["bestmove"]
    or [Scan] returns [false]; returns the scanner where it stops. *)
Fixpoint go_loop (ls : list (string * Scanner)) (fin : Scanner) : Scanner :=
  match ls with
  | [] => fin
  | (l, s) :: ls' => if String.eqb l "bestmove" then s else go_loop ls' fin
  end.

(** [func (c *Client) Go(s Search) (<-chan Info, <-chan BestMove)]. *)
Definition Go (c : Client) (s : Search) : Client * (chan Info * chan BestMove) :=
  let w1 := fprint c.(w) (String_ s ++ newline) in
  let infoCh : chan Info := make_chan in
  let bestCh : chan BestMove := make_chan in
  let '(ls, fin) := scanned c.(r) in
  let sc := go_loop ls fin in
  (mkClient sc.(s_r) w1, (infoCh, bestCh)).

(** What a consumer observes: the items the info sequence yields, and
    whether the result resolves (a [BestMove] is received, or the channel
    is closed, which reports the failure). *)
Definition info_items (c : chan Info) : list Info := c.(ch_sent).
Definition resolves (c : chan BestMove) : bool :=
  match c.(ch_sent) with
  | [] => c.(ch_closed)
  | _ :: _ => true
  end.

(** The loop [for s.Scan() && !uciok { ... }] of [UCI]: [s.Scan()] is
    evaluated first, so once [uciok] is set one more line is read before
    the loop ends.  Returns the named results [name, author, opts], the
    scanner where the method returns, and the error. *)
Fixpoint uci_loop (name author : string) (opts : list OptionGo.Option) (uciok : bool)
  (ls : list (string * Scanner)) (fin : Scanner)
  : string * string * list OptionGo.Option * Scanner * option string :=
  match ls with
  | [] => (name, author, opts, fin, Err fin)
  | (line, s) :: ls' =>
      if uciok then (name, author, opts, s, Err s)
      else if has_prefix line "id name " then
        uci_loop (trim_prefix line "id name ") author opts uciok ls' fin
      else if has_prefix line "id author " then
        uci_loop name (trim_prefix line "id author ") opts uciok ls' fin
      else if has_prefix line "option " then
        match OptionGo.UnmarshalText OptionGo.zero line with
        | (opt, None) => uci_loop name author (opts ++ [opt]) uciok ls' fin
        | (_, Some err) => ("", "", [], s, Some err)
        end
      else if String.eqb line "uciok" then uci_loop name author opts true ls' fin
      else uci_loop name author opts uciok ls' fin
  end.

(** [func (c *Client) UCI() (name, author string, opts []Option, err error)]. *)
Definition UCI (c : Client) : Client * (string * string * list OptionGo.Option * option string) :=
  let w1 := fprintln c.(w) "uci" in
  let '(ls, fin) := scanned c.(r) in
  let '(name, author, opts, s, err) := uci_loop "" "" [] false ls fin in
  (mkClient s.(s_r) w1, (name, author, opts, err)).

(** [func (c *Client) IsReady() error]. *)
Fixpoint isready_loop (ls : list (string * Scanner)) (fin : Scanner) : Scanner * option string :=
  match ls with
  | [] => (fin, Err fin)
  | (l, s) :: ls' => if String.eqb l "readyok" then (s, None) else isready_loop ls' fin
  end.

Definition IsReady (c : Client) : Client * option string :=
  let w1 := fprintln c.(w) "isready" in
  let '(ls, fin) := scanned c.(r) in
  let '(s, err) := isready_loop ls fin in
  (mkClient s.(s_r) w1, err).

Definition SetOption (c : Client) (name value : string) : Client :=
  if String.eqb value "" then mkClient c.(r) (fprint c.(w) ("setoption name " ++ name))
  else mkClient c.(r) (fprint c.(w) ("setoption name " ++ name ++ " value " ++ value)).

Definition Register (c : Client) (name code : string) : Client :=
  mkClient c.(r) (fprint c.(w) ("register name " ++ name ++ " code " ++ code ++ newline)).
Definition RegisterLater (c : Client) : Client := mkClient c.(r) (fprintln c.(w) "register later").
Definition UCINewGame (c : Client) : Client := mkClient c.(r) (fprintln c.(w) "ucinewgame").
Definition Stop (c : Client) : Client := mkClient c.(r) (fprintln c.(w) "stop").
Definition PonderHit (c : Client) : Client := mkClient c.(r) (fprintln c.(w) "ponderhit").
Definition Quit (c : Client) : Client := mkClient c.(r) (fprintln c.(w) "quit").

End Part000.

(** ** The option grammar of the spec (section 4.1), on the token list *)
Module OptionSpec.

(** The tokens of the name: those before the first literal [type]. *)
Fixpoint before_type (l : list string) : list string :=
  match l with
  | [] => []
  | f :: l' => if String.eqb f "type" then [] else f :: before_type l'
  end.

(** The key/value region: from the first literal [type] on. *)
Fixpoint from_type (l : list string) : list string :=
  match l with
  | [] => []
  | f :: l' => if String.eqb f "type" then l else from_type l'
  end.

(** Some [min] or [max] key of the region is followed by a token that is
    not an [int]. *)
Definition bad_bound (ks : list string) : Prop :=
  exists i key v, nth_error ks i = Some key /\ nth_error ks (S i) = Some v
    /\ (key = "min" \/ key = "max") /\ atoi v = None.

Definition malformed (fs : list string) : Prop :=
  (List.length fs < 5)%nat
  \/ firstn 2 fs <> ["option"; "name"]
  \/ bad_bound (from_type (skipn 2 fs)).

(** The tokens that directly follow an occurrence of [key], in order. *)
Fixpoint values_after (key : string) (l : list string) : list string :=
  match l with
  | k :: ((v :: _) as tl) =>
      if String.eqb k key then v :: values_after key tl else values_after key tl
  | _ => []
  end.

(** The integers among [vs] that [strconv.Atoi] accepts. *)
Definition parsed_ints (vs : list string) : list Z :=
  flat_map (fun v => match atoi v with Some n => [n] | None => [] end) vs.

End OptionSpec.

(** ** Inputs and views used by the statements below *)

Definition empty_writer : writer := mkWriter "" None.

(** The options [UCI] parses from the [option] lines of [pre], in order. *)
Definition parsed_options (pre : list string) : list UciGo.Option :=
  List.map (fun l => fst (UciGo.UnmarshalText UciGo.zero l))
    (List.filter (fun l => has_prefix l "option ") pre).

(** A string with no white-space byte. *)
Definition no_space (t : string) : bool :=
  forallb (fun c => negb (is_space c)) (list_ascii_of_string t).

(** A token as [strings.Fields] yields them. *)
Definition word (t : string) : Prop := t <> "" /\ no_space t = true.

(** The values of the lines of [pre] that start with [p], prefix removed,
    in order: the [id name ] or [id author ] lines of a handshake. *)
Definition id_values (p : string) (pre : list string) : list string :=
  List.map (fun l => trim_prefix l p) (List.filter (fun l => has_prefix l p) pre).

(** The options [UCI] of [option.go] parses from the [option] lines of [pre]. *)
Definition parsed_go_options (pre : list string) : list OptionGo.Option :=
  List.map (fun l => fst (OptionGo.UnmarshalText OptionGo.zero l))
    (List.filter (fun l => has_prefix l "option ") pre).

(** The client of [uci.go] after its handshake loop has read the lines
    [pre]: the last name and author announced, the options appended. *)
Definition uci_absorb (c : UciGo.Client) (pre : list string) : UciGo.Client :=
  UciGo.mkClient (UciGo.r c) (UciGo.w c)
    (last (id_values "id name " pre) (UciGo.CName c))
    (last (id_values "id author " pre) (UciGo.Author c))
    (UciGo.Options c ++ parsed_options pre)%list (UciGo.CResult c).

(** The same for the client of [client.go]. *)
Definition client_absorb (c : ClientGo.Client) (pre : list string) : ClientGo.Client :=
  ClientGo.mkClient (ClientGo.r c) (ClientGo.w c)
    (last (id_values "id name " pre) (ClientGo.CName c))
    (last (id_values "id author " pre) (ClientGo.Author c))
    (ClientGo.Options c ++ parsed_go_options pre)%list (ClientGo.CResult c).

(** A string with no newline byte. *)
Definition no_newline (t : string) : bool :=
  forallb (fun c => negb (Ascii.eqb c (ascii_of_nat 10))) (list_ascii_of_string t).

(** The tokens a reader of the [go] command of [client.go] sees, in order. *)
Definition go_tokens (p : ClientGo.GoParameters) : list string :=
  let opt (b : bool) (ts : list string) := if b then ts else [] in
  "go" :: opt (ClientGo.Ponder p) ["ponder"]
  ++ opt (ClientGo.Infinite p) ["infinite"]
  ++ opt (0 <? ClientGo.Mate p)%Z ["mate"; itoa (ClientGo.Mate p)]
  ++ opt (0 <? ClientGo.MoveTime p)%Z ["movetime"; itoa (Milliseconds (ClientGo.MoveTime p))]
  ++ opt (0 <? ClientGo.WhiteTime p)%Z ["wtime"; itoa (Milliseconds (ClientGo.WhiteTime p))]
  ++ opt (0 <? ClientGo.BlackTime p)%Z ["btime"; itoa (Milliseconds (ClientGo.BlackTime p))]
  ++ opt (0 <? ClientGo.WhiteIncrement p)%Z ["winc"; itoa (Milliseconds (ClientGo.WhiteIncrement p))]
  ++ opt (0 <? ClientGo.BlackIncrement p)%Z ["binc"; itoa (Milliseconds (ClientGo.BlackIncrement p))]
  ++ opt (0 <? ClientGo.MovesToGo p)%Z ["movestogo"; itoa (ClientGo.MovesToGo p)]
  ++ opt (0 <? ClientGo.Depth p)%Z ["depth"; itoa (ClientGo.Depth p)]
  ++ opt (0 <? ClientGo.Nodes p)%Z ["nodes"; itoa (ClientGo.Nodes p)]
  ++ opt (0 <? List.length (ClientGo.SearchMoves p))%nat ("searchmoves" :: ClientGo.SearchMoves p).

(** Text that is empty or starts with a space. *)
Definition spaced (s : string) : Prop := s = "" \/ exists s', s = String " " s'.

(** An optional flag, and an optional key with its value, each with its
    leading space, as [go_text] writes them. *)
Definition flag (b : bool) (k : string) : string := if b then (" " ++ k)%string else "".
Definition kv (b : bool) (k v : string) : string :=
  if b then (" " ++ k ++ " " ++ v)%string else "".

(** Lines that neither end the handshake nor carry a malformed option. *)
Definition uci_plain (pre : list string) : Prop :=
  ~ In "uciok" pre /\
  Forall (fun l => has_prefix l "option " = true ->
                   snd (UciGo.UnmarshalText UciGo.zero l) = None) pre.

Definition client_plain (pre : list string) : Prop :=
  ~ In "uciok" pre /\
  Forall (fun l => has_prefix l "option " = true ->
                   snd (OptionGo.UnmarshalText OptionGo.zero l) = None) pre.

Definition hash_twice : list string :=
  ["option name Hash type spin default 16 min 1 max 64";
   "option name Hash type spin default 32 min 1 max 128";
   "uciok"].

(** The text of the lines [ls], each ended by a newline. *)
Definition unlines (ls : list string) : string :=
  fold_right (fun l t => l ++ newline ++ t) "" ls.

(** A reader whose [Read] calls return one line each, newline included,
    as the pipe of an engine that writes a line at a time and waits. *)
Definition line_reader (ls : list string) (e : stream_end) (b : bool) : reader :=
  Reader (List.map (fun l => l ++ newline) ls) e b.

(** A line as an engine writes it: no newline, no final carriage return,
    and shorter than the scanner's first buffer of [startBufSize] bytes. *)
Definition engine_line (l : string) : Prop :=
  no_newline l = true /\ dropCR l = l /\ (String.length l < 4096)%nat.

(** What the code uses of a scanner once it has returned: the reader it
    leaves and [s.Err()]. *)
Definition obs (s : Scanner) : reader * option string := (s_r s, Err s).

(** The error a scanner over [line_reader] has recorded once it has
    read the lines before [ls']: the end, when it came with the last line,
    and nothing otherwise. *)
Definition end_with (b : bool) (ls' : list string) (e : stream_end) : option scan_error :=
  if b && match ls' with [] => true | _ :: _ => false end then Some (of_end e) else None.

(** [s.Err()] at that point. *)
Definition line_err (ls' : list string) (e : stream_end) (b : bool) : option string :=
  if b && match ls' with [] => true | _ :: _ => false end then scan_err e else None.

(** The lines a new scanner yields from [line_reader ls e b], with what
    it leaves after each: the later lines, and [s.Err()]. *)
Fixpoint line_obs (ls : list string) (e : stream_end) (b : bool)
  : list (string * (reader * option string)) :=
  match ls with
  | [] => []
  | l :: ls' => (dropCR l, (line_reader ls' e b, line_err ls' e b)) :: line_obs ls' e b
  end.

(** The lines [for s.Scan()] sees over a new scanner on [rd]. *)
Definition lines_read (rd : reader) : list string := List.map fst (fst (scanned rd)).

Lemma lines_read_unfold (rd : reader) : lines_read rd = List.map fst (fst (scanned rd)).
Proof. reflexivity. Qed.

Example fields_ex : fields "  option name  Move Overhead type" =
  ["option"; "name"; "Move"; "Overhead"; "type"].
Proof. reflexivity. Qed.

Example atoi_ex : atoi "-12" = Some (-12)%Z /\ atoi "+7" = Some 7%Z /\ atoi "" = None
  /\ atoi "-" = None /\ atoi "1x" = None /\ atoi "9223372036854775808" = None.
Proof. repeat split; reflexivity. Qed.

Example unmarshal_ex :
  OptionGo.UnmarshalText OptionGo.zero "option name Move Overhead type spin default 10 min 0 max 5000"
  = (OptionGo.mkOption "Move Overhead" "spin" "10" 0%Z 5000%Z [], None).
Proof. reflexivity. Qed.

Example uci_unmarshal_ex :
  UciGo.UnmarshalText UciGo.zero "option name HistoryFill type combo default fen_only var no var fen_only var always"
  = (UciGo.mkOption "HistoryFill" "combo" "fen_only" "" "" ["no"; "fen_only"; "always"], None).
Proof. reflexivity. Qed.

Example uci_ex :
  let c := UciGo.NewClient (mkReader [unlines ["id name My Chess Engine"; "id author A B";
             "option name DoFoo type button"; "uciok"; "readyok"]] EOF) (mkWriter "" None) in
  let '(c', err) := UciGo.UCI c in
  err = None /\ UciGo.CName c' = "My Chess Engine" /\ UciGo.Author c' = "A B"
  /\ List.map UciGo.Name (UciGo.Options c') = ["DoFoo"]
  /\ r_chunks (UciGo.r c') = [].
Proof. vm_compute. repeat split. Qed.

(** ** Lemmas on the option parser of [option.go] *)
Section OptionGoFacts.
Import OptionGo OptionSpec.

Lemma name_scan_split (l : list string) :
  name_scan l = (before_type l, from_type l).
Proof.
  induction l as [|f l IH]; simpl; [reflexivity|].
  destruct (String.eqb f "type"); [reflexivity|].
  rewrite IH. reflexivity.
Qed.

Lemma walk_step_name (o o' : Option) (cur nxt : string) :
  walk_step o cur nxt = Some o' -> Name o' = Name o.
Proof.
  unfold walk_step; intros H.
  repeat match type of H with
  | context [String.eqb ?a ?b] => destruct (String.eqb a b)
  | context [atoi ?v] => destruct (atoi v)
  end; inversion H; reflexivity.
Qed.

Lemma walk_cons (o : Option) (cur nxt : string) (tl : list string) :
  walk o (cur :: nxt :: tl) =
  match walk_step o cur nxt with
  | Some o' => walk o' (nxt :: tl)
  | None => (o, Some todo)
  end.
Proof. reflexivity. Qed.

Lemma walk_name (l : list string) (o : Option) : Name (fst (walk o l)) = Name o.
Proof.
  revert o; induction l as [|cur l IH]; intros o; [reflexivity|].
  destruct l as [|nxt tl]; [reflexivity|].
  rewrite walk_cons. destruct (walk_step o cur nxt) as [o'|] eqn:E; [|reflexivity].
  rewrite IH. exact (walk_step_name _ _ _ _ E).
Qed.

Lemma walk_step_fails (o : Option) (cur nxt : string) :
  walk_step o cur nxt = None <-> (cur = "min" \/ cur = "max") /\ atoi nxt = None.
Proof.
  unfold walk_step.
  destruct (String.eqb_spec cur "type") as [->|H1]; [split; [discriminate|intros [[E|E] _]; discriminate]|].
  destruct (String.eqb_spec cur "default") as [->|H2]; [split; [discriminate|intros [[E|E] _]; discriminate]|].
  destruct (String.eqb_spec cur "min") as [->|H3].
  { destruct (atoi nxt); split; try discriminate; auto.
    intros [_ E]; discriminate. }
  destruct (String.eqb_spec cur "max") as [->|H4].
  { destruct (atoi nxt); split; try discriminate; auto.
    intros [_ E]; discriminate. }
  destruct (String.eqb cur "var"); split; try discriminate; intros [[E|E] _]; congruence.
Qed.

Lemma bad_bound_cons (x y : string) (l : list string) :
  bad_bound (x :: y :: l) <->
  ((x = "min" \/ x = "max") /\ atoi y = None) \/ bad_bound (y :: l).
Proof.
  split.
  - intros [i [key [v [Hk [Hv [Hkey Ha]]]]]].
    destruct i as [|i].
    + simpl in Hk, Hv. inversion Hk; inversion Hv; subst. left; auto.
    + right. exists i, key, v. auto.
  - intros [[Hx Ha]|[i [key [v [Hk [Hv [Hkey Ha]]]]]]].
    + exists 0%nat, x, y. simpl. auto.
    + exists (S i), key, v. auto.
Qed.

Lemma bad_bound_short (l : list string) : (List.length l <= 1)%nat -> ~ bad_bound l.
Proof.
  intros Hl [i [key [v [Hk [Hv _]]]]].
  assert (Hn : nth_error l (S i) <> None) by congruence.
  apply nth_error_Some in Hn. lia.
Qed.

Lemma walk_fails (l : list string) (o : Option) :
  snd (walk o l) <> None <-> bad_bound l.
Proof.
  revert o; induction l as [|cur l IH]; intros o.
  - split; [simpl; congruence|]. intros H; exfalso; exact (bad_bound_short [] ltac:(simpl; lia) H).
  - destruct l as [|nxt tl].
    + split; [simpl; congruence|].
      intros H; exfalso; exact (bad_bound_short [cur] ltac:(simpl; lia) H).
    + rewrite bad_bound_cons, walk_cons.
      destruct (walk_step o cur nxt) as [o'|] eqn:E.
      * rewrite IH. split; [auto|].
        intros [H|H]; [apply (walk_step_fails o) in H; congruence|exact H].
      * split; [intros _; left; apply (walk_step_fails o); exact E|].
        intros _; simpl; discriminate.
Qed.

End OptionGoFacts.

(** ** The scanner over its reader

    [bufio.Scanner] fills its buffer with [Read] calls of the room left
    in it; the lemmas below follow it over a reader whose [Read] calls
    return whole lines, and over a reader that holds one [Read]. *)

Lemma str_length_app (s t : string) : String.length (s ++ t) = (String.length s + String.length t)%nat.
Proof. induction s; simpl; auto. Qed.

Lemma no_newline_cons (a : ascii) (s : string) :
  no_newline (String a s) = negb (Ascii.eqb a (ascii_of_nat 10)) && no_newline s.
Proof. reflexivity. Qed.

Lemma index_byte_none (s : string) : no_newline s = true -> index_byte (ascii_of_nat 10) s = None.
Proof.
  induction s as [|a s IH]; [reflexivity|]. rewrite no_newline_cons. intros H.
  apply andb_true_iff in H as [Ha Hs]. simpl. apply negb_true_iff in Ha. rewrite Ha, IH; auto.
Qed.

Lemma index_byte_line (l : string) :
  no_newline l = true -> index_byte (ascii_of_nat 10) (l ++ newline) = Some (String.length l).
Proof.
  induction l as [|a l IH]; [reflexivity|]. rewrite no_newline_cons. intros H.
  apply andb_true_iff in H as [Ha Hs]. simpl. apply negb_true_iff in Ha. rewrite Ha, IH; auto.
Qed.

Lemma str_take_app_le (n : nat) (s t : string) :
  (n <= String.length s)%nat -> str_take n (s ++ t) = str_take n s.
Proof.
  revert n; induction s as [|a s IH]; intros n H; simpl in *.
  - assert (n = 0%nat) by lia. subst. reflexivity.
  - destruct n; [reflexivity|]. simpl. rewrite IH by lia. reflexivity.
Qed.

Lemma str_take_length (s t : string) : str_take (String.length s) (s ++ t) = s.
Proof. induction s; simpl; congruence. Qed.

Lemma str_drop_line (l : string) : str_drop (S (String.length l)) (l ++ newline) = "".
Proof. induction l; simpl in *; auto. Qed.

Lemma str_take_drop (n : nat) (s : string) : (str_take n s ++ str_drop n s)%string = s.
Proof. revert s; induction n; intros [|a s]; simpl; f_equal; auto. Qed.

Lemma str_take_length_le (n : nat) (s : string) :
  (n <= String.length s)%nat -> String.length (str_take n s) = n.
Proof. revert s; induction n; intros [|a s] H; simpl in *; try lia; auto with arith. Qed.

Lemma str_drop_length (n : nat) (s : string) :
  String.length (str_drop n s) = (String.length s - n)%nat.
Proof. revert s; induction n; intros [|a s]; simpl; auto. Qed.

Lemma no_newline_take (n : nat) (s : string) :
  no_newline s = true -> no_newline (str_take n s) = true.
Proof.
  revert s; induction n; intros [|a s] H; try reflexivity.
  simpl str_take. rewrite no_newline_cons in *. apply andb_true_iff in H as [Ha Hs].
  rewrite Ha, IHn; auto.
Qed.

Lemma read_fits (ch : string) (chs : list string) (e : stream_end) (b : bool) (n : Z) :
  (len ch <= n)%Z ->
  read (Reader (ch :: chs) e b) n
  = (ch, (if b then match chs with [] => Some e | _ :: _ => None end else None), Reader chs e b).
Proof. intros H. unfold read; cbn [r_chunks r_end r_end_with_data]. rewrite (proj2 (Z.leb_le _ _) H). reflexivity. Qed.

Lemma read_part (ch : string) (chs : list string) (e : stream_end) (b : bool) (n : Z) :
  (n < len ch)%Z ->
  read (Reader (ch :: chs) e b) n
  = (str_take (Z.to_nat n) ch, None, Reader (str_drop (Z.to_nat n) ch :: chs) e b).
Proof.
  intros H. unfold read; cbn [r_chunks r_end r_end_with_data].
  destruct (Z.leb_spec (len ch) n); [lia|reflexivity].
Qed.

Lemma read_loop_fits (left : nat) (ch : string) (chs : list string) (e : stream_end) (b : bool)
    (buf : string) (st sz : Z) :
  (len ch <= sz - (st + len buf))%Z -> ch <> "" ->
  read_loop left (mkScanner (Reader (ch :: chs) e b) buf st sz None)
  = mkScanner (Reader chs e b) (buf ++ ch) st sz (end_with b chs e).
Proof.
  intros H Hne. destruct left; cbn [read_loop s_size s_start s_buf s_r s_err];
  rewrite read_fits by exact H;
  destruct ch as [|a ch]; try congruence;
  destruct b, chs; reflexivity.
Qed.

Lemma read_loop_part (left : nat) (ch : string) (chs : list string) (e : stream_end) (b : bool)
    (buf : string) (st sz : Z) :
  (0 < sz - (st + len buf) < len ch)%Z ->
  read_loop left (mkScanner (Reader (ch :: chs) e b) buf st sz None)
  = mkScanner (Reader (str_drop (Z.to_nat (sz - (st + len buf))) ch :: chs) e b)
      (buf ++ str_take (Z.to_nat (sz - (st + len buf))) ch) st sz None.
Proof.
  intros H. assert (Hl : String.length (str_take (Z.to_nat (sz - (st + len buf))) ch)
                         = Z.to_nat (sz - (st + len buf))).
  { apply str_take_length_le. unfold len in *. lia. }
  destruct left; cbn [read_loop s_size s_start s_buf s_r s_err];
  rewrite read_part by lia; rewrite Hl;
  destruct (Nat.ltb_spec 0 (Z.to_nat (sz - (st + len buf)))); try lia; reflexivity.
Qed.

Lemma scan_lines_line (l : string) (a : bool) :
  no_newline l = true ->
  ScanLines (l ++ newline) a = (S (String.length l), Some (dropCR l)).
Proof.
  intros H. unfold ScanLines. rewrite index_byte_line by exact H. rewrite str_take_length.
  destruct l; destruct a; reflexivity.
Qed.


Lemma scan_step_empty (rd : reader) (st sz : Z) (f : nat) :
  (sz = 0 /\ st = 0 \/ sz = 4096 /\ 0 <= st <= 4096)%Z ->
  exists k, (0 <= k < 4096)%Z /\
  scan_loop (S f) (mkScanner rd "" st sz None)
  = scan_loop f (read_loop maxConsecutiveEmptyReads (mkScanner rd "" k 4096 None)).
Proof.
  intros [[-> ->]|[-> Hst]].
  - exists 0%Z. split; [lia|]. cbn [scan_loop]. cbn -[read_loop scan_loop]. reflexivity.
  - cbn [scan_loop]. cbn -[read_loop scan_loop].
    set (k := if (0 <? st)%Z && ((st + 0 =? 4096)%Z || (2048 <? st)%Z) then 0%Z else st).
    assert (Hk : (0 <= k < 4096)%Z).
    { unfold k. destruct (Z.ltb_spec 0 st), (Z.eqb_spec (st + 0) 4096), (Z.ltb_spec 2048 st);
        cbn [andb orb]; lia. }
    exists k. split; [exact Hk|]. rewrite (proj2 (Z.eqb_neq (k + 0) 4096)) by lia. reflexivity.
Qed.

Lemma scan_step_token (rd : reader) (l : string) (st sz : Z) (err : option scan_error) (f : nat) :
  no_newline l = true ->
  scan_loop (S f) (mkScanner rd (l ++ newline) st sz err)
  = (Some (dropCR l), mkScanner rd "" (st + Z.of_nat (S (String.length l))) sz err).
Proof.
  intros Hn. cbn [scan_loop s_buf s_err s_start s_size s_r].
  assert (Hlen : (0 <? String.length (l ++ newline))%nat = true).
  { rewrite str_length_app. apply Nat.ltb_lt. simpl. lia. }
  rewrite Hlen, orb_true_l, scan_lines_line by exact Hn. rewrite str_drop_line. reflexivity.
Qed.

Lemma scan_step_partial (rd : reader) (buf : string) (st : Z) (f : nat) :
  no_newline buf = true -> buf <> "" -> (0 < st)%Z -> (st + len buf = 4096)%Z ->
  scan_loop (S f) (mkScanner rd buf st 4096 None)
  = scan_loop f (read_loop maxConsecutiveEmptyReads (mkScanner rd buf 0 4096 None)).
Proof.
  intros Hn Hne Hst Hend. cbn [scan_loop s_buf s_err s_start s_size s_r].
  assert (Hlen : (0 <? String.length buf)%nat = true).
  { destruct buf; [congruence|reflexivity]. }
  rewrite Hlen, orb_true_l. unfold ScanLines. rewrite index_byte_none by exact Hn.
  cbn [andb]. rewrite (proj2 (Z.ltb_lt 0 st) Hst), Hend, Z.eqb_refl. cbn [andb orb].
  assert (Hl : (0 + len buf =? 4096)%Z = false) by (apply Z.eqb_neq; lia).
  rewrite Hl. reflexivity.
Qed.

Lemma scan_line (l : string) (chs : list string) (e : stream_end) (b : bool) (st sz : Z) (f : nat) :
  no_newline l = true -> (String.length l < 4096)%nat ->
  (sz = 0 /\ st = 0 \/ sz = 4096 /\ 0 <= st <= 4096)%Z ->
  exists st', (0 <= st' <= 4096)%Z /\
  scan_loop (S (S (S f))) (mkScanner (Reader ((l ++ newline) :: chs) e b) "" st sz None)
  = (Some (dropCR l), mkScanner (Reader chs e b) "" st' 4096 (end_with b chs e)).
Proof.
  intros Hn Hl Hs.
  destruct (scan_step_empty (Reader ((l ++ newline) :: chs) e b) st sz (S (S f)) Hs)
    as [k [Hk ->]].
  assert (Hc : len (l ++ newline) = (Z.of_nat (String.length l) + 1)%Z).
  { unfold len. rewrite str_length_app. change (String.length newline) with 1%nat. lia. }
  assert (Hne : (l ++ newline)%string <> "") by (destruct l; discriminate).
  destruct (Z.le_gt_cases (len (l ++ newline)) (4096 - (k + len ""))) as [Hfit|Hpart].
  - rewrite read_loop_fits by assumption. cbn [append].
    rewrite scan_step_token by exact Hn.
    exists (k + Z.of_nat (S (String.length l)))%Z. split; [|reflexivity].
    rewrite Hc in Hfit. change (len "") with 0%Z in Hfit. lia.
  - change (len "") with 0%Z in *. rewrite Z.add_0_r in *.
    rewrite read_loop_part by (rewrite Z.add_0_r; lia).
    rewrite Z.add_0_r. cbn [append].
    remember (Z.to_nat (4096 - k)) as n eqn:Hnk.
    assert (Hnl : (n <= String.length l)%nat) by lia.
    assert (Hlt : String.length (str_take n (l ++ newline)) = n).
    { apply str_take_length_le. rewrite str_length_app. change (String.length newline) with 1%nat. lia. }
    rewrite scan_step_partial.
    + rewrite read_loop_fits.
      * rewrite str_take_drop. rewrite scan_step_token by exact Hn.
        exists (0 + Z.of_nat (S (String.length l)))%Z. split; [lia|reflexivity].
      * unfold len. rewrite str_drop_length, Hlt, str_length_app. change (String.length newline) with 1%nat. lia.
      * intros E. apply (f_equal String.length) in E. rewrite str_drop_length, str_length_app in E.
        change (String.length newline) with 1%nat in E. change (String.length "") with 0%nat in E. lia.
    + rewrite str_take_app_le by exact Hnl. apply no_newline_take, Hn.
    + intros E. apply (f_equal String.length) in E. rewrite Hlt in E. change (String.length "") with 0%nat in E. lia.
    + lia.
    + unfold len. rewrite Hlt. lia.
Qed.

Lemma scan_end_some (rd : reader) (st sz : Z) (x : scan_error) (f : nat) :
  scan_loop (S f) (mkScanner rd "" st sz (Some x)) = (None, mkScanner rd "" 0 sz (Some x)).
Proof. reflexivity. Qed.

Lemma scan_end_none (e : stream_end) (b : bool) (st sz : Z) (f : nat) :
  (sz = 0 /\ st = 0 \/ sz = 4096 /\ 0 <= st <= 4096)%Z ->
  scan_loop (S (S f)) (mkScanner (Reader [] e b) "" st sz None)
  = (None, mkScanner (Reader [] e b) "" 0 4096 (Some (of_end e))).
Proof.
  intros Hs. destruct (scan_step_empty (Reader [] e b) st sz (S f) Hs) as [k [Hk ->]].
  destruct maxConsecutiveEmptyReads; reflexivity.
Qed.

Lemma err_of_end (rd : reader) (buf : string) (st sz : Z) (e : stream_end) :
  Err (mkScanner rd buf st sz (Some (of_end e))) = scan_err e.
Proof. destruct e; reflexivity. Qed.

Lemma reader_bytes_cons (ch : string) (chs : list string) (e : stream_end) (b : bool) :
  reader_bytes (Reader (ch :: chs) e b) = (String.length ch + reader_bytes (Reader chs e b))%nat.
Proof. reflexivity. Qed.

Lemma scan_all_lines (ls : list string) (e : stream_end) (b : bool) (st sz : Z) (f : nat) :
  Forall (fun l => no_newline l = true /\ (String.length l < 4096)%nat) ls ->
  (sz = 0 /\ st = 0 \/ sz = 4096 /\ 0 <= st <= 4096)%Z ->
  (List.length ls < f)%nat ->
  let '(steps, fin) := scan_all f (mkScanner (line_reader ls e b) "" st sz None) in
  List.map (fun p => (fst p, obs (snd p))) steps = line_obs ls e b
  /\ obs fin = (line_reader [] e b, scan_err e).
Proof.
  revert st sz f; induction ls as [|l ls IH]; intros st sz f Hf Hs Hlen.
  - destruct f as [|f]; [simpl in Hlen; lia|].
    cbn [scan_all]. unfold Scan. cbn [s_r].
    change (line_reader [] e b) with (Reader [] e b).
    change (reader_bytes (Reader [] e b)) with 0%nat.
    rewrite scan_end_none by exact Hs. split; [reflexivity|].
    unfold obs. cbn [s_r]. rewrite err_of_end. reflexivity.
  - inversion Hf as [|? ? [Hn Hl] Hf']; subst.
    destruct f as [|f]; [simpl in Hlen; lia|]. cbn [List.length] in Hlen.
    cbn [scan_all]. unfold Scan. cbn [s_r].
    change (line_reader (l :: ls) e b)
      with (Reader ((l ++ newline) :: List.map (fun l => l ++ newline) ls) e b).
    rewrite reader_bytes_cons, str_length_app. change (String.length newline) with 1%nat.
    rewrite Nat.add_1_r, Nat.add_succ_l.
    destruct (scan_line l (List.map (fun l => l ++ newline) ls) e b st sz
                (String.length l + reader_bytes (Reader (List.map (fun l => l ++ newline) ls) e b))
                Hn Hl Hs) as [st' [Hst' ->]].
    destruct ls as [|l' ls'].
    + destruct b.
      * destruct f as [|f]; [lia|]. cbn [scan_all]. unfold Scan. cbn [s_r List.map end_with andb].
        rewrite scan_end_some. cbn [List.map fst snd]. unfold obs. cbn [s_r].
        rewrite !err_of_end. split; reflexivity.
      * specialize (IH st' 4096%Z f Hf' ltac:(lia) ltac:(simpl; lia)).
        cbn [end_with andb].
        change (Reader (List.map (fun l => l ++ newline) []) e false) with (line_reader [] e false).
        destruct (scan_all f (mkScanner (line_reader [] e false) "" st' 4096 None)) as [steps fin].
        destruct IH as [H1 H2]. cbn [List.map fst snd]. rewrite H1. split; [|exact H2].
        reflexivity.
    + specialize (IH st' 4096%Z f Hf' ltac:(lia) ltac:(simpl in *; lia)).
      assert (Hend : end_with b (List.map (fun l => l ++ newline) (l' :: ls')) e = None)
        by (destruct b; reflexivity).
      rewrite Hend.
      change (Reader (List.map (fun l => l ++ newline) (l' :: ls')) e b) with (line_reader (l' :: ls') e b).
      destruct (scan_all f (mkScanner (line_reader (l' :: ls') e b) "" st' 4096 None)) as [steps fin].
      destruct IH as [H1 H2]. cbn [List.map fst snd]. rewrite H1. split; [|exact H2].
      unfold obs. cbn [s_r]. destruct b; reflexivity.
Qed.

Lemma scanned_lines (ls : list string) (e : stream_end) (b : bool) :
  Forall (fun l => no_newline l = true /\ (String.length l < 4096)%nat) ls ->
  let '(steps, fin) := scanned (line_reader ls e b) in
  List.map (fun p => (fst p, obs (snd p))) steps = line_obs ls e b
  /\ obs fin = (line_reader [] e b, scan_err e).
Proof.
  intros Hf. unfold scanned, NewScanner.
  apply scan_all_lines; [exact Hf|left; split; reflexivity|].
  unfold line_reader, reader_bytes. cbn [r_chunks].
  clear Hf. induction ls as [|l ls IH]; cbn [List.map fold_right List.length]; [lia|].
  rewrite str_length_app. change (String.length newline) with 1%nat. lia.
Qed.

Lemma setErr_r (s : Scanner) (x : scan_error) : s_r (setErr s x) = s_r s.
Proof. destruct s as [? ? ? ? [[]|]]; reflexivity. Qed.

Lemma read_loop_keeps_empty (e : stream_end) (b : bool) (left : nat) (s : Scanner) :
  s_r s = Reader [] e b -> s_r (read_loop left s) = Reader [] e b.
Proof.
  intros H. destruct s as [r buf st sz err]; cbn [s_r] in H; subst r.
  destruct left; cbn [read_loop s_r]; unfold read; cbn [r_chunks r_end]; rewrite setErr_r; reflexivity.
Qed.

Lemma scan_loop_keeps_empty (e : stream_end) (b : bool) (f : nat) : forall s : Scanner,
  s_r s = Reader [] e b -> s_r (snd (scan_loop f s)) = Reader [] e b.
Proof.
  induction f as [|f IH]; intros [r buf st sz err] H; cbn [s_r] in H; subst r; [reflexivity|].
  cbn [scan_loop s_r s_buf s_start s_size s_err].
  match goal with |- context [match ?X with pair _ _ => _ end] => destruct X as [adv tok] end.
  destruct tok; [reflexivity|].
  destruct err; [reflexivity|].
  repeat match goal with |- context [if ?c then _ else _] => destruct c end;
    first [ reflexivity | rewrite setErr_r; reflexivity
          | apply IH; apply read_loop_keeps_empty; reflexivity ].
Qed.

Lemma scan_all_keeps_empty (e : stream_end) (b : bool) (f : nat) : forall s : Scanner,
  s_r s = Reader [] e b ->
  let '(steps, fin) := scan_all f s in
  Forall (fun p => s_r (snd p) = Reader [] e b) steps /\ s_r fin = Reader [] e b.
Proof.
  induction f as [|f IH]; intros s H; [split; auto|].
  cbn [scan_all]. pose proof (scan_loop_keeps_empty e b (S (S (reader_bytes (s_r s)))) s H) as Hs.
  unfold Scan. destruct (scan_loop _ s) as [[t|] s']; cbn [snd] in Hs.
  - specialize (IH s' Hs). destruct (scan_all f s') as [steps fin]. destruct IH.
    split; [constructor; auto|auto].
  - split; auto.
Qed.

Lemma scan_fresh_step (rd : reader) (f : nat) :
  scan_loop (S f) (NewScanner rd)
  = scan_loop f (read_loop maxConsecutiveEmptyReads (mkScanner rd "" 0 4096 None)).
Proof. cbn [scan_loop]. cbn -[read_loop scan_loop]. reflexivity. Qed.

Lemma scanned_one_read (t : string) (e : stream_end) :
  t <> "" -> (String.length t <= 4096)%nat ->
  let '(steps, fin) := scanned (mkReader [t] e) in
  Forall (fun p => s_r (snd p) = mkReader [] e) steps /\ s_r fin = mkReader [] e.
Proof.
  intros Hne Hl. unfold scanned. cbn [scan_all]. unfold Scan.
  rewrite scan_fresh_step. unfold mkReader.
  rewrite read_loop_fits by (first [exact Hne | unfold len, startBufSize; cbn [String.length]; lia]).
  cbn [append].
  pose proof (scan_loop_keeps_empty e false (S (reader_bytes (s_r (NewScanner (Reader [t] e false)))))
                (mkScanner (Reader [] e false) t 0 4096 (end_with false [] e)) eq_refl) as Hs.
  destruct (scan_loop _ _) as [[x|] s']; cbn [snd] in Hs.
  - pose proof (scan_all_keeps_empty e false (reader_bytes (Reader [t] e false)) s' Hs) as H.
    destruct (scan_all _ s') as [steps fin]. destruct H. split; [constructor; auto|auto].
  - split; auto.
Qed.

Lemma line_obs_app (pre ls : list string) (e : stream_end) (b : bool) :
  exists o, line_obs (pre ++ ls) e b = (o ++ line_obs ls e b)%list
            /\ List.map fst o = List.map dropCR pre.
Proof.
  induction pre as [|l pre [o [H1 H2]]]; [exists []; auto|].
  exists ((dropCR l, (line_reader (pre ++ ls) e b, line_err (pre ++ ls) e b)) :: o).
  cbn [app line_obs List.map fst]. rewrite H1, H2. auto.
Qed.

Lemma engine_dropCR (ls : list string) : Forall engine_line ls -> List.map dropCR ls = ls.
Proof. induction 1 as [|l ls [_ [H _]] _ IH]; cbn [List.map]; congruence. Qed.

Lemma engine_short (ls : list string) :
  Forall engine_line ls -> Forall (fun l => no_newline l = true /\ (String.length l < 4096)%nat) ls.
Proof. apply Forall_impl. intros l [H1 [_ H3]]. auto. Qed.

Lemma map_fst_obs (steps : list (string * Scanner)) :
  List.map fst (List.map (fun p => (fst p, obs (snd p))) steps) = List.map fst steps.
Proof. rewrite map_map. reflexivity. Qed.

Lemma scanned_at (pre : list string) (x : string) (post : list string) (e : stream_end) (b : bool) :
  Forall engine_line (pre ++ x :: post) ->
  exists s1 s s2, fst (scanned (line_reader (pre ++ x :: post) e b)) = (s1 ++ (x, s) :: s2)%list
    /\ List.map fst s1 = pre /\ obs s = (line_reader post e b, line_err post e b).
Proof.
  intros Hf. pose proof (scanned_lines _ e b (engine_short _ Hf)) as H.
  destruct (scanned (line_reader (pre ++ x :: post) e b)) as [steps fin]. destruct H as [H _].
  cbn [fst]. destruct (line_obs_app pre (x :: post) e b) as [o [Ho Hm]]. rewrite Ho in H.
  apply map_eq_app in H as [s1 [s2' [-> [H1 H2]]]].
  cbn [line_obs] in H2. apply map_eq_cons in H2 as [[x' s] [s2 [-> [Hp _]]]].
  injection Hp as Hx Hs1 Hs2.
  apply Forall_app in Hf as [Hpre Hxp]. inversion Hxp as [|? ? [_ [Hcr _]] _]; subst.
  exists s1, s, s2. rewrite Hcr. split; [reflexivity|].
  split; [|unfold obs; rewrite Hs1, Hs2; reflexivity].
  rewrite <- map_fst_obs, Hm. apply engine_dropCR, Hpre.
Qed.

Lemma scanned_whole (ls : list string) (e : stream_end) (b : bool) :
  Forall engine_line ls ->
  lines_read (line_reader ls e b) = ls
  /\ obs (snd (scanned (line_reader ls e b))) = (line_reader [] e b, scan_err e).
Proof.
  intros Hf. pose proof (scanned_lines _ e b (engine_short _ Hf)) as H. rewrite lines_read_unfold.
  destruct (scanned (line_reader ls e b)) as [steps fin]. destruct H as [H1 H2].
  split; [|exact H2]. cbn [fst]. rewrite <- map_fst_obs, H1.
  rewrite <- (engine_dropCR ls Hf) at 2. clear. induction ls; cbn; congruence.
Qed.

(** ** The handshake loops over the lines a scanner yields *)

Lemma prefix_app (l p : string) : has_prefix l p = true -> exists rest, l = (p ++ rest)%string.
Proof.
  unfold has_prefix. revert l; induction p as [|a p IH]; intros l H.
  - exists l; reflexivity.
  - destruct l as [|b l]; [discriminate|]. cbn [String.prefix] in H.
    destruct (ascii_dec a b) as [<-|]; [|discriminate].
    destruct (IH l H) as [rest ->]. exists rest; reflexivity.
Qed.

Lemma id_name_excl (l : string) :
  has_prefix l "id name " = true ->
  has_prefix l "id author " = false /\ has_prefix l "option " = false /\ l <> "uciok".
Proof. intros H; destruct (prefix_app _ _ H) as [rest ->]; repeat split; discriminate. Qed.

Lemma id_author_excl (l : string) :
  has_prefix l "id author " = true ->
  has_prefix l "id name " = false /\ has_prefix l "option " = false /\ l <> "uciok".
Proof. intros H; destruct (prefix_app _ _ H) as [rest ->]; repeat split; discriminate. Qed.

Lemma option_excl (l : string) :
  has_prefix l "option " = true ->
  has_prefix l "id name " = false /\ has_prefix l "id author " = false.
Proof. intros H; destruct (prefix_app _ _ H) as [rest ->]; split; reflexivity. Qed.

Lemma id_values_cons (p l : string) (pre : list string) :
  id_values p (l :: pre) =
  if has_prefix l p then trim_prefix l p :: id_values p pre else id_values p pre.
Proof. unfold id_values; simpl. destruct (has_prefix l p); reflexivity. Qed.

Lemma parsed_options_cons (l : string) (pre : list string) :
  parsed_options (l :: pre) =
  if has_prefix l "option " then fst (UciGo.UnmarshalText UciGo.zero l) :: parsed_options pre
  else parsed_options pre.
Proof. unfold parsed_options; simpl. destruct (has_prefix l "option "); reflexivity. Qed.

Lemma parsed_go_options_cons (l : string) (pre : list string) :
  parsed_go_options (l :: pre) =
  if has_prefix l "option " then fst (OptionGo.UnmarshalText OptionGo.zero l) :: parsed_go_options pre
  else parsed_go_options pre.
Proof. unfold parsed_go_options; simpl. destruct (has_prefix l "option "); reflexivity. Qed.

Lemma plain_cons (ok : string -> Prop) (l : string) (pre : list string) :
  ~ In "uciok" (l :: pre) -> Forall ok (l :: pre) ->
  l <> "uciok" /\ ~ In "uciok" pre /\ ok l /\ Forall ok pre.
Proof.
  intros Hin Hf. inversion Hf; subst.
  repeat split; auto; [intros E; apply Hin; left; congruence|intros H; apply Hin; right; exact H].
Qed.

Lemma last_cons_default {A : Type} (x : A) (l : list A) (d : A) : last (x :: l) d = last l x.
Proof.
  revert x d; induction l as [|a l IH]; intros x d; [reflexivity|].
  change (last (x :: a :: l) d) with (last (a :: l) d). rewrite !IH. reflexivity.
Qed.

Lemma steps_at (steps : list (string * Scanner)) (pre post : list string) (x : string) :
  List.map fst steps = (pre ++ x :: post)%list ->
  exists s1 s s2, steps = (s1 ++ (x, s) :: s2)%list
    /\ List.map fst s1 = pre /\ List.map fst s2 = post.
Proof.
  intros H. apply map_eq_app in H as [s1 [s2' [-> [H1 H2]]]].
  apply map_eq_cons in H2 as [[x' s] [s2 [-> [Hx H3]]]]. cbn [fst] in Hx. subst x'.
  exists s1, s, s2. auto.
Qed.

Ltac engine_line_tac := split; [reflexivity|split; [reflexivity|cbn; lia]].
Ltac engines_tac := repeat (apply Forall_cons; [engine_line_tac|]); apply Forall_nil.

Lemma engine_uciok : engine_line "uciok".
Proof. engine_line_tac. Qed.

Lemma engine_readyok : engine_line "readyok".
Proof. engine_line_tac. Qed.

Lemma engine_bestmove : engine_line "bestmove".
Proof. engine_line_tac. Qed.

Lemma engine_app (pre : list string) (x : string) (post : list string) :
  Forall engine_line pre -> engine_line x -> Forall engine_line post ->
  Forall engine_line (pre ++ x :: post).
Proof. intros H1 H2 H3. apply Forall_app. split; [exact H1|constructor; assumption]. Qed.

Lemma uci_loop_app (c : UciGo.Client) (ls1 ls2 : list (string * Scanner)) (fin : Scanner) :
  uci_plain (List.map fst ls1) ->
  UciGo.uci_loop c (ls1 ++ ls2) fin = UciGo.uci_loop (uci_absorb c (List.map fst ls1)) ls2 fin.
Proof.
  unfold uci_plain. revert c; induction ls1 as [|[line s] ls1 IH]; intros c [Hin Hok].
  - destruct c; unfold uci_absorb; simpl. rewrite app_nil_r. reflexivity.
  - cbn [List.map fst] in Hin, Hok.
    destruct (plain_cons _ _ _ Hin Hok) as [Hne [Hin' [Hl Hok']]].
    cbn [app UciGo.uci_loop List.map fst]. unfold uci_absorb at 1.
    rewrite !id_values_cons, parsed_options_cons.
    destruct (has_prefix line "id name ") eqn:Hid.
    { destruct (id_name_excl _ Hid) as [Ha [Ho _]]. rewrite Ha, Ho, IH by auto.
      rewrite last_cons_default. destruct c; reflexivity. }
    destruct (has_prefix line "id author ") eqn:Hau.
    { destruct (id_author_excl _ Hau) as [_ [Ho _]]. rewrite Ho, IH by auto.
      rewrite last_cons_default. destruct c; reflexivity. }
    destruct (has_prefix line "option ") eqn:Hop.
    { specialize (Hl eq_refl).
      destruct (UciGo.UnmarshalText UciGo.zero line) as [opt err0] eqn:Hu.
      simpl in Hl. subst err0. rewrite IH by auto.
      unfold uci_absorb; destruct c; simpl. rewrite <- app_assoc. reflexivity. }
    destruct (String.eqb_spec line "uciok") as [E|_]; [contradiction|].
    rewrite IH by auto. reflexivity.
Qed.

Lemma client_loop_app (c : ClientGo.Client) (ls1 ls2 : list (string * Scanner)) (fin : Scanner) :
  client_plain (List.map fst ls1) ->
  ClientGo.uci_loop c (ls1 ++ ls2) fin = ClientGo.uci_loop (client_absorb c (List.map fst ls1)) ls2 fin.
Proof.
  unfold client_plain. revert c; induction ls1 as [|[line s] ls1 IH]; intros c [Hin Hok].
  - destruct c; unfold client_absorb; simpl. rewrite app_nil_r. reflexivity.
  - cbn [List.map fst] in Hin, Hok.
    destruct (plain_cons _ _ _ Hin Hok) as [Hne [Hin' [Hl Hok']]].
    cbn [app ClientGo.uci_loop List.map fst]. unfold client_absorb at 1.
    rewrite !id_values_cons, parsed_go_options_cons.
    destruct (has_prefix line "id name ") eqn:Hid.
    { destruct (id_name_excl _ Hid) as [Ha [Ho _]]. rewrite Ha, Ho, IH by auto.
      rewrite last_cons_default. destruct c; reflexivity. }
    destruct (has_prefix line "id author ") eqn:Hau.
    { destruct (id_author_excl _ Hau) as [_ [Ho _]]. rewrite Ho, IH by auto.
      rewrite last_cons_default. destruct c; reflexivity. }
    destruct (has_prefix line "option ") eqn:Hop.
    { specialize (Hl eq_refl).
      destruct (OptionGo.UnmarshalText OptionGo.zero line) as [opt err0] eqn:Hu.
      simpl in Hl. subst err0. rewrite IH by auto.
      unfold client_absorb; destruct c; simpl. rewrite <- app_assoc. reflexivity. }
    destruct (String.eqb_spec line "uciok") as [E|_]; [contradiction|].
    rewrite IH by auto. reflexivity.
Qed.

Lemma part000_loop_app (nm au : string) (opts : list OptionGo.Option)
    (ls1 ls2 : list (string * Scanner)) (fin : Scanner) :
  client_plain (List.map fst ls1) ->
  Part000.uci_loop nm au opts false (ls1 ++ ls2) fin =
  Part000.uci_loop (last (id_values "id name " (List.map fst ls1)) nm)
    (last (id_values "id author " (List.map fst ls1)) au)
    (opts ++ parsed_go_options (List.map fst ls1)) false ls2 fin.
Proof.
  unfold client_plain. revert nm au opts; induction ls1 as [|[line s] ls1 IH]; intros nm au opts [Hin Hok].
  - simpl. rewrite app_nil_r. reflexivity.
  - cbn [List.map fst] in Hin, Hok.
    destruct (plain_cons _ _ _ Hin Hok) as [Hne [Hin' [Hl Hok']]].
    cbn [app Part000.uci_loop List.map fst].
    rewrite !id_values_cons, parsed_go_options_cons.
    destruct (has_prefix line "id name ") eqn:Hid.
    { destruct (id_name_excl _ Hid) as [Ha [Ho _]]. rewrite Ha, Ho, IH by auto.
      rewrite last_cons_default. reflexivity. }
    destruct (has_prefix line "id author ") eqn:Hau.
    { destruct (id_author_excl _ Hau) as [_ [Ho _]]. rewrite Ho, IH by auto.
      rewrite last_cons_default. reflexivity. }
    destruct (has_prefix line "option ") eqn:Hop.
    { specialize (Hl eq_refl).
      destruct (OptionGo.UnmarshalText OptionGo.zero line) as [opt err0] eqn:Hu.
      simpl in Hl. subst err0. rewrite IH by auto. rewrite <- app_assoc. reflexivity. }
    destruct (String.eqb_spec line "uciok") as [E|_]; [contradiction|].
    rewrite IH by auto. reflexivity.
Qed.

Lemma uci_loop_uciok (c : UciGo.Client) (s : Scanner) (ls : list (string * Scanner)) (fin : Scanner) :
  UciGo.uci_loop c (("uciok", s) :: ls) fin = (c, s, Err s).
Proof. reflexivity. Qed.

Lemma client_loop_uciok (c : ClientGo.Client) (s : Scanner) (ls : list (string * Scanner)) (fin : Scanner) :
  ClientGo.uci_loop c (("uciok", s) :: ls) fin = (c, s, Err s).
Proof. reflexivity. Qed.

Lemma part000_loop_uciok (nm au : string) (opts : list OptionGo.Option) (s : Scanner)
    (x : string) (s' : Scanner) (ls : list (string * Scanner)) (fin : Scanner) :
  Part000.uci_loop nm au opts false (("uciok", s) :: (x, s') :: ls) fin = (nm, au, opts, s', Err s')
  /\ Part000.uci_loop nm au opts false [("uciok", s)] fin = (nm, au, opts, fin, Err fin).
Proof. split; reflexivity. Qed.

Lemma uci_loop_bad (c : UciGo.Client) (bad err : string) (s : Scanner)
    (ls : list (string * Scanner)) (fin : Scanner) :
  has_prefix bad "option " = true -> snd (UciGo.UnmarshalText UciGo.zero bad) = Some err ->
  UciGo.uci_loop c ((bad, s) :: ls) fin = (c, s, Some err).
Proof.
  intros Hop Hbad. cbn [UciGo.uci_loop]. destruct (option_excl _ Hop) as [H1 H2].
  rewrite H1, H2, Hop. destruct (UciGo.UnmarshalText UciGo.zero bad) as [o' err'].
  cbn [snd] in Hbad; subst err'. reflexivity.
Qed.

Lemma client_loop_bad (c : ClientGo.Client) (bad err : string) (s : Scanner)
    (ls : list (string * Scanner)) (fin : Scanner) :
  has_prefix bad "option " = true -> snd (OptionGo.UnmarshalText OptionGo.zero bad) = Some err ->
  ClientGo.uci_loop c ((bad, s) :: ls) fin = (c, s, Some err).
Proof.
  intros Hop Hbad. cbn [ClientGo.uci_loop]. destruct (option_excl _ Hop) as [H1 H2].
  rewrite H1, H2, Hop. destruct (OptionGo.UnmarshalText OptionGo.zero bad) as [o' err'].
  cbn [snd] in Hbad; subst err'. reflexivity.
Qed.

Lemma part000_loop_bad (nm au : string) (opts : list OptionGo.Option) (bad err : string) (s : Scanner)
    (ls : list (string * Scanner)) (fin : Scanner) :
  has_prefix bad "option " = true -> snd (OptionGo.UnmarshalText OptionGo.zero bad) = Some err ->
  Part000.uci_loop nm au opts false ((bad, s) :: ls) fin = ("", "", [], s, Some err).
Proof.
  intros Hop Hbad. cbn [Part000.uci_loop]. destruct (option_excl _ Hop) as [H1 H2].
  rewrite H1, H2, Hop. destruct (OptionGo.UnmarshalText OptionGo.zero bad) as [o' err'].
  cbn [snd] in Hbad; subst err'. reflexivity.
Qed.

Lemma no_line_in (x : string) (l : string) (ls : list string) :
  ~ In x (l :: ls) -> l <> x /\ ~ In x ls.
Proof. intros H. split; [intros E; apply H; left; congruence|intros H'; apply H; right; exact H']. Qed.

Lemma uci_isready_loop_app (ls1 ls2 : list (string * Scanner)) (fin : Scanner) :
  ~ In "readyok" (List.map fst ls1) ->
  UciGo.isready_loop (ls1 ++ ls2) fin = UciGo.isready_loop ls2 fin.
Proof.
  induction ls1 as [|[l s] ls1 IH]; intros Hin; [reflexivity|].
  destruct (no_line_in _ _ _ Hin) as [Hne Hin']. cbn [app UciGo.isready_loop].
  destruct (String.eqb_spec l "readyok") as [E|_]; [contradiction|]. auto.
Qed.

Lemma client_isready_loop_app (ls1 ls2 : list (string * Scanner)) (fin : Scanner) :
  ~ In "readyok" (List.map fst ls1) ->
  ClientGo.isready_loop (ls1 ++ ls2) fin = ClientGo.isready_loop ls2 fin
  /\ Part000.isready_loop (ls1 ++ ls2) fin = Part000.isready_loop ls2 fin.
Proof.
  induction ls1 as [|[l s] ls1 IH]; intros Hin; [split; reflexivity|].
  destruct (no_line_in _ _ _ Hin) as [Hne Hin']. cbn [app ClientGo.isready_loop Part000.isready_loop].
  destruct (String.eqb_spec l "readyok") as [E|_]; [contradiction|]. auto.
Qed.

Lemma go_loop_app (ls1 ls2 : list (string * Scanner)) (fin : Scanner) :
  ~ In "bestmove" (List.map fst ls1) ->
  Part000.go_loop (ls1 ++ ls2) fin = Part000.go_loop ls2 fin.
Proof.
  induction ls1 as [|[l s] ls1 IH]; intros Hin; [reflexivity|].
  destruct (no_line_in _ _ _ Hin) as [Hne Hin']. cbn [app Part000.go_loop].
  destruct (String.eqb_spec l "bestmove") as [E|_]; [contradiction|]. auto.
Qed.

Ltac client_norm :=
  unfold uci_absorb, client_absorb;
  cbn [UciGo.set_r UciGo.set_w UciGo.r UciGo.w UciGo.CName UciGo.Author UciGo.Options UciGo.CResult
       ClientGo.set_r ClientGo.set_w ClientGo.r ClientGo.w ClientGo.CName ClientGo.Author
       ClientGo.Options ClientGo.CResult Part000.r Part000.w fst snd w_out w_err].

Ltac plain_tac :=
  split;
  [ simpl; intuition discriminate
  | repeat (apply Forall_cons; [intros ?H; first [reflexivity | discriminate H] |]);
    apply Forall_nil ].


(** ** Claims on [Option.UnmarshalText] ([src/uci/option.go]) *)

(** C4: the name is every token after [option name] up to, and excluding,
    the first literal [type], joined with single spaces (the other fields
    of the walk never change it); and
    [option name Move Overhead type spin default 10 min 0 max 5000] parses
    to name "Move Overhead", type [spin], default "10", min 0, max 5000. *)
Theorem option_name_tokens_until_type (o : OptionGo.Option) (text : string) :
  (5 <= List.length (fields text))%nat ->
  firstn 2 (fields text) = ["option"; "name"] ->
  OptionGo.Name (fst (OptionGo.UnmarshalText o text))
    = join " " (OptionSpec.before_type (skipn 2 (fields text)))
  /\ OptionGo.UnmarshalText OptionGo.zero
       "option name Move Overhead type spin default 10 min 0 max 5000"
     = (OptionGo.mkOption "Move Overhead" OptionGo.SpinOptionType "10" 0%Z 5000%Z [], None).
Proof.
  intros Hlen Hpre. split; [|reflexivity].
  unfold OptionGo.UnmarshalText. revert Hlen Hpre.
  destruct (fields text) as [|f0 [|f1 rest]]; intros Hlen Hpre; simpl in Hlen; try lia.
  simpl in Hpre. inversion Hpre; subst f0 f1.
  destruct (Nat.ltb_spec (List.length ("option" :: "name" :: rest)) 5) as [H|H]; [simpl in H; lia|].
  simpl. rewrite name_scan_split.
  rewrite walk_name. reflexivity.
Qed.

(** C5: [UnmarshalText] returns an error exactly when the line has fewer
    than 5 tokens, or does not begin with the tokens [option name], or a
    [min] or [max] key of the key/value walk (which starts at the first
    literal [type]) is followed by a token [strconv.Atoi] rejects (not an
    optionally signed decimal integer in the range of a 64-bit [int]);
    on every other input it returns [nil]. *)
Theorem option_unmarshal_fails_iff (o : OptionGo.Option) (text : string) :
  snd (OptionGo.UnmarshalText o text) <> None <-> OptionSpec.malformed (fields text).
Proof.
  unfold OptionGo.UnmarshalText, OptionSpec.malformed.
  destruct (fields text) as [|f0 [|f1 rest]].
  - simpl. split; [intros _; left; lia|discriminate].
  - simpl. split; [intros _; left; lia|discriminate].
  - destruct (Nat.ltb_spec (List.length (f0 :: f1 :: rest)) 5) as [H|H].
    + split; [intros _; left; exact H|discriminate].
    + destruct (String.eqb_spec f0 "option") as [->|H0].
      2:{ simpl. split; [intros _; right; left; congruence|discriminate]. }
      destruct (String.eqb_spec f1 "name") as [->|H1].
      2:{ simpl. split; [intros _; right; left; congruence|discriminate]. }
      simpl. rewrite name_scan_split, walk_fails.
      split; [intros Hb; right; right; exact Hb|].
      intros [Hl|[Hp|Hb]]; [simpl in *; lia|congruence|exact Hb].
Qed.

(** Witness of C4. *)
Lemma option_name_tokens_until_type_witness :
  let text := "option name Move Overhead type spin default 10 min 0 max 5000" in
  (5 <= List.length (fields text))%nat /\ firstn 2 (fields text) = ["option"; "name"]
  /\ OptionGo.Name (fst (OptionGo.UnmarshalText OptionGo.zero text)) = "Move Overhead".
Proof.
  cbv zeta.
  assert (H1 : (5 <= List.length (fields "option name Move Overhead type spin default 10 min 0 max 5000"))%nat)
    by (vm_compute; lia).
  assert (H2 : firstn 2 (fields "option name Move Overhead type spin default 10 min 0 max 5000")
               = ["option"; "name"]) by reflexivity.
  split; [exact H1|split; [exact H2|]].
  destruct (option_name_tokens_until_type OptionGo.zero _ H1 H2) as [H _].
  rewrite H. reflexivity.
Defined.

(** C10: the key/value walk moves its cursor by one token, so the token
    just read as a value is read as a key at the next step (in both
    revisions of the parser); on
    [option name X type combo default var var a] the default becomes
    "var" and the value list becomes ["var"; "a"], not ["a"]. *)
Theorem option_walk_rereads_values :
  (forall o cur nxt tl,
     UciGo.walk o (cur :: nxt :: tl) = UciGo.walk (UciGo.walk_step o cur nxt) (nxt :: tl))
  /\ (forall o cur nxt tl,
     OptionGo.walk o (cur :: nxt :: tl) =
     match OptionGo.walk_step o cur nxt with
     | Some o' => OptionGo.walk o' (nxt :: tl)
     | None => (o, Some OptionGo.todo)
     end)
  /\ OptionGo.UnmarshalText OptionGo.zero "option name X type combo default var var a"
     = (OptionGo.mkOption "X" OptionGo.ComboOptionType "var" 0%Z 0%Z ["var"; "a"], None)
  /\ UciGo.UnmarshalText UciGo.zero "option name X type combo default var var a"
     = (UciGo.mkOption "X" "combo" "var" "" "" ["var"; "a"], None).
Proof.
  split; [reflexivity|]. split; [exact walk_cons|]. split; reflexivity.
Qed.

(** ** The session and the commands *)

(** C1 ([src/unnamed/part_000], [Client.Go]): on an engine's reply of one
    [info] line and a [bestmove] line, delivered in one [Read], [Go]
    reads the whole input (its loop stops only at a line equal to
    ["bestmove"]) and returns two channels on which nothing is ever sent
    and which are never closed: the info sequence yields 0 items instead
    of 1, and the result never resolves, neither to a [BestMove] nor to a
    failure. *)
Theorem go_channels_never_fed :
  let c := Part000.NewClient
             (mkReader [unlines ["info depth 1 score cp 20 pv e2e4"; "bestmove e2e4 ponder e7e5"]] EOF)
             empty_writer in
  let '(c', (infoCh, bestCh)) := Part000.Go c (Part000.mkSearch [] false false 0 0 0 0 0 0 0 1 0)%Z in
  Part000.info_items infoCh = [] /\ Part000.resolves bestCh = false
  /\ Part000.ch_closed infoCh = false /\ r_chunks (Part000.r c') = []
  /\ w_out (Part000.w c') = "go depth 1" ++ newline.
Proof. vm_compute. repeat split. Qed.

(** C2 ([src/uci/uci.go] [Client.UCI], [src/uci/client.go] [Client.IsReady]):
    on input that ends before [uciok] (resp. [readyok]) both calls return
    [s.Err()], which is [nil] at end of input: the caller sees success. *)
Theorem truncated_stream_reports_success :
  snd (UciGo.UCI (UciGo.NewClient
         (mkReader [unlines ["id name Foo"; "option name Hash type spin default 16 min 1 max 64"]] EOF)
         empty_writer)) = None
  /\ snd (ClientGo.IsReady (ClientGo.NewClient (mkReader [] EOF) empty_writer)) = None
  /\ snd (ClientGo.IsReady (ClientGo.NewClient (mkReader [unlines ["info string loading"]] EOF)
                             empty_writer))
     = None.
Proof. vm_compute. repeat split. Qed.

(** C3, counterexample: two declarations of the option [Hash] during the
    handshake, sent in one [Read], leave [Hash] twice in the option list
    of [src/uci/uci.go] and of [src/uci/client.go], the earlier
    declaration first. *)
Lemma handshake_keeps_duplicate_names :
  let c' := fst (UciGo.UCI (UciGo.NewClient (mkReader [unlines hash_twice] EOF) empty_writer)) in
  let d' := fst (ClientGo.UCI (ClientGo.NewClient (mkReader [unlines hash_twice] EOF) empty_writer)) in
  List.map UciGo.Name (UciGo.Options c') = ["Hash"; "Hash"]
  /\ List.map UciGo.Default (UciGo.Options c') = ["16"; "32"]
  /\ List.map OptionGo.Name (ClientGo.Options d') = ["Hash"; "Hash"]
  /\ List.map OptionGo.Default (ClientGo.Options d') = ["16"; "32"].
Proof. vm_compute. repeat split. Qed.

(** C3 (amended): the handshake [UCI] of [src/uci/uci.go] (with a working
    writer) and that of [src/uci/client.go] append every [option]
    declaration their scanner yields before [uciok] to the client's
    option list, one entry per declaration, in arrival order; entries
    already there and earlier declarations of the same name are kept,
    never replaced.  This holds whatever the [Read] calls of the reader
    return: [lines_read] is what the scanner yields. *)
Theorem handshake_appends_every_declaration (c : UciGo.Client) (d : ClientGo.Client)
    (pre post : list string) :
  w_err (UciGo.w c) = None ->
  lines_read (UciGo.r c) = (pre ++ "uciok" :: post)%list ->
  lines_read (ClientGo.r d) = (pre ++ "uciok" :: post)%list ->
  uci_plain pre -> client_plain pre ->
  UciGo.Options (fst (UciGo.UCI c)) = (UciGo.Options c ++ parsed_options pre)%list
  /\ ClientGo.Options (fst (ClientGo.UCI d)) = (ClientGo.Options d ++ parsed_go_options pre)%list.
Proof.
  intros Hw Hc Hd Hp Hq. rewrite !lines_read_unfold in Hc, Hd. split.
  - destruct c as [rd [out werr] nm au opts res]; cbn [UciGo.w UciGo.r w_err] in Hw, Hc; subst werr.
    unfold UciGo.UCI, UciGo.send, write; cbn [UciGo.w UciGo.set_w UciGo.r w_err w_out].
    destruct (scanned rd) as [steps fin]. cbn [fst] in Hc.
    destruct (steps_at _ _ _ _ Hc) as [s1 [s [s2 [-> [H1 _]]]]]. cbv beta iota.
    rewrite uci_loop_app by (rewrite H1; exact Hp). rewrite H1, uci_loop_uciok. client_norm. reflexivity.
  - destruct d as [rd wr nm au opts res]; cbn [ClientGo.r] in Hd.
    unfold ClientGo.UCI; cbn [ClientGo.w ClientGo.set_w ClientGo.r].
    destruct (scanned rd) as [steps fin]. cbn [fst] in Hd.
    destruct (steps_at _ _ _ _ Hd) as [s1 [s [s2 [-> [H1 _]]]]]. cbv beta iota.
    rewrite client_loop_app by (rewrite H1; exact Hq). rewrite H1, client_loop_uciok. client_norm. reflexivity.
Qed.

(** Witness of the amended C3, on two declarations of [Hash] sent in one
    [Read]. *)
Lemma handshake_appends_every_declaration_witness :
  let c := UciGo.NewClient (mkReader [unlines hash_twice] EOF) empty_writer in
  let d := ClientGo.NewClient (mkReader [unlines hash_twice] EOF) empty_writer in
  UciGo.Options (fst (UciGo.UCI c)) = (UciGo.Options c ++ parsed_options (firstn 2 hash_twice))%list
  /\ ClientGo.Options (fst (ClientGo.UCI d))
     = (ClientGo.Options d ++ parsed_go_options (firstn 2 hash_twice))%list.
Proof.
  exact (handshake_appends_every_declaration
    (UciGo.NewClient (mkReader [unlines hash_twice] EOF) empty_writer)
    (ClientGo.NewClient (mkReader [unlines hash_twice] EOF) empty_writer)
    (firstn 2 hash_twice) [] eq_refl
    ltac:(vm_compute; reflexivity) ltac:(vm_compute; reflexivity) ltac:(plain_tac) ltac:(plain_tac)).
Defined.

(** C6 ([src/unnamed/part_000], [Search.String]): [searchmoves] is written
    without its leading space, so re-tokenizing [go depth 5] with the move
    [e2e4] gives the token ["5searchmoves"] and no [searchmoves] token;
    the sibling [Go] of [src/uci/client.go] writes the space. *)
Theorem search_string_glues_searchmoves :
  fields (Part000.String_ (Part000.mkSearch ["e2e4"] false false 0 0 0 0 0 0 0 5 0)%Z)
    = ["go"; "depth"; "5searchmoves"; "e2e4"]
  /\ fields (Part000.String_ (Part000.mkSearch ["e2e4"] false false 0 0 0 0 0 0 0 0 0)%Z)
    = ["gosearchmoves"; "e2e4"]
  /\ fields (ClientGo.go_text (ClientGo.mkGoParameters ["e2e4"] false false 0 0 0 0 0 0 0 5 0)%Z)
    = ["go"; "depth"; "5"; "searchmoves"; "e2e4"].
Proof. repeat split; reflexivity. Qed.

(** C7 ([src/unnamed/part_000], [Search.String]): a duration is written with
    [%d], i.e. in nanoseconds: a move time of 1.5 s gives [movetime
    1500000000], where [Go] of [src/uci/client.go] writes [movetime 1500]. *)
Theorem search_string_durations_in_nanoseconds :
  Part000.String_ (Part000.mkSearch [] false false 0 1500000000 0 0 0 0 0 0 0)%Z
    = "go movetime 1500000000"
  /\ Part000.String_ (Part000.mkSearch [] false false 0 0 60000000000 60000000000 0 0 0 0 0)%Z
    = "go wtime 60000000000 btime 60000000000"
  /\ ClientGo.go_text (ClientGo.mkGoParameters [] false false 0 1500000000 0 0 0 0 0 0 0)%Z
    = "go movetime 1500".
Proof. repeat split; reflexivity. Qed.

(** C8 ([Client.PositionStartPos] of [src/unnamed/part_000] and
    [src/uci/client.go]): the marker is written with [Fprintln], so the
    command spans two lines: with no move the second line is empty, with
    moves the [moves] suffix is on a line of its own; [PositionFEN] writes
    one line. *)
Theorem position_startpos_two_lines :
  let c := Part000.NewClient (mkReader [] EOF) empty_writer in
  lines (w_out (Part000.w (Part000.PositionStartPos c []))) = ["position startpos"; ""]
  /\ lines (w_out (Part000.w (Part000.PositionStartPos c ["e2e4"; "e7e5"])))
     = ["position startpos"; " moves e2e4 e7e5"]
  /\ lines (w_out (ClientGo.w (ClientGo.PositionStartPos
                                 (ClientGo.NewClient (mkReader [] EOF) empty_writer) [])))
     = ["position startpos"; ""]
  /\ lines (w_out (Part000.w (Part000.PositionFEN c "8/8/8/8/8/8/8/K1k5 w - - 0 1" ["a1a2"])))
     = ["position fen 8/8/8/8/8/8/8/K1k5 w - - 0 1 moves a1a2"].
Proof. repeat split; reflexivity. Qed.

(** C9 ([Client.Debug] of [src/uci/client.go] and [src/unnamed/part_000]):
    [Debug(true)] writes [debug on] and then [debug off], as the [if] has
    no [return] or [else]; [Debug] of [src/uci/uci.go] writes [debug on]
    only. *)
Theorem debug_on_also_writes_off :
  w_out (ClientGo.w (ClientGo.Debug (ClientGo.NewClient (mkReader [] EOF) empty_writer) true))
    = "debug on" ++ newline ++ "debug off" ++ newline
  /\ w_out (Part000.w (Part000.Debug (Part000.NewClient (mkReader [] EOF) empty_writer) true))
    = "debug on" ++ newline ++ "debug off" ++ newline
  /\ w_out (ClientGo.w (ClientGo.Debug (ClientGo.NewClient (mkReader [] EOF) empty_writer) false))
    = "debug off" ++ newline
  /\ w_out (UciGo.w (fst (UciGo.Debug (UciGo.NewClient (mkReader [] EOF) empty_writer) true)))
    = "debug on" ++ newline.
Proof. repeat split; reflexivity. Qed.

(** ** Further properties *)

(** *** Strings *)

Lemma sapp_assoc (a b c : string) : ((a ++ b) ++ c)%string = (a ++ b ++ c)%string.
Proof. induction a as [|x a IH]; simpl; [reflexivity|]. rewrite IH. reflexivity. Qed.

Lemma sapp_nil_r (a : string) : (a ++ "")%string = a.
Proof. induction a as [|x a IH]; simpl; [reflexivity|]. rewrite IH. reflexivity. Qed.

Lemma list_ascii_app (a b : string) :
  list_ascii_of_string (a ++ b) = (list_ascii_of_string a ++ list_ascii_of_string b)%list.
Proof. induction a as [|x a IH]; simpl; [reflexivity|]. rewrite IH. reflexivity. Qed.

Lemma no_space_app (a b : string) : no_space (a ++ b) = no_space a && no_space b.
Proof. unfold no_space. rewrite list_ascii_app, forallb_app. reflexivity. Qed.

Lemma fields_from_no_space (t s cur : string) :
  no_space t = true -> fields_from (t ++ s) cur = fields_from s (cur ++ t).
Proof.
  revert cur; induction t as [|c t IH]; intros cur H.
  - simpl. rewrite sapp_nil_r. reflexivity.
  - unfold no_space in H. simpl in H. apply andb_prop in H as [Hc Ht].
    simpl. apply negb_true_iff in Hc. rewrite Hc.
    rewrite IH by exact Ht. rewrite sapp_assoc. reflexivity.
Qed.

Lemma fields_from_space (s cur : string) :
  fields_from (String " " s) cur = ((if String.eqb cur "" then [] else [cur]) ++ fields_from s "")%list.
Proof. simpl. destruct (String.eqb cur ""); reflexivity. Qed.

(** [strings.Fields] of a word, then a space-led rest. *)
Lemma fields_word_app (t s : string) :
  word t -> fields (t ++ String " " s) = t :: fields s.
Proof.
  intros [Hne Hns]. unfold fields.
  rewrite fields_from_no_space by exact Hns. rewrite fields_from_space.
  simpl. destruct (String.eqb_spec t "") as [E|_]; [contradiction|reflexivity].
Qed.

Lemma fields_word (t : string) : word t -> fields t = [t].
Proof.
  intros [Hne Hns]. unfold fields.
  rewrite <- (sapp_nil_r t) at 1. rewrite fields_from_no_space by exact Hns.
  simpl. destruct (String.eqb_spec t "") as [E|_]; [contradiction|reflexivity].
Qed.

Lemma fields_from_words (s cur : string) :
  no_space cur = true -> Forall word (fields_from s cur).
Proof.
  revert cur; induction s as [|c s IH]; intros cur Hcur; simpl.
  - destruct (String.eqb_spec cur "") as [_|Hne]; constructor; [split; assumption|constructor].
  - destruct (is_space c) eqn:Hc.
    + destruct (String.eqb_spec cur "") as [_|Hne]; [apply IH; reflexivity|].
      constructor; [split; assumption|apply IH; reflexivity].
    + apply IH. rewrite no_space_app, Hcur. unfold no_space. simpl. rewrite Hc. reflexivity.
Qed.

(** Every token of [strings.Fields] is a non-empty run of non-space bytes. *)
Lemma fields_words (s : string) : Forall word (fields s).
Proof. apply fields_from_words. reflexivity. Qed.

Lemma word_first (t : string) : word t -> exists c t', t = String c t' /\ is_space c = false.
Proof.
  intros [Hne Hns]. destruct t as [|c t']; [contradiction|].
  unfold no_space in Hns. simpl in Hns. apply andb_prop in Hns as [Hc _].
  exists c, t'. split; [reflexivity|]. apply negb_true_iff; exact Hc.
Qed.

Lemma word_last (t : string) :
  word t -> exists l c, list_ascii_of_string t = (l ++ [c])%list /\ is_space c = false.
Proof.
  intros [Hne Hns].
  destruct (list_ascii_of_string t) as [|a l'] eqn:E.
  - exfalso; apply Hne. rewrite <- (string_of_list_ascii_of_string t), E. reflexivity.
  - destruct (exists_last (l := a :: l') ltac:(discriminate)) as [l [c Hl]].
    exists l, c. split; [exact Hl|].
    unfold no_space in Hns. rewrite E, Hl, forallb_app in Hns.
    apply andb_prop in Hns as [_ Hc]. simpl in Hc. rewrite andb_true_r in Hc.
    apply negb_true_iff; exact Hc.
Qed.

Lemma join_first (t : string) (ts : list string) :
  exists rest, join " " (t :: ts) = (t ++ rest)%string.
Proof.
  destruct ts as [|y ts]; [exists ""; simpl; rewrite sapp_nil_r; reflexivity|].
  exists (" " ++ join " " (y :: ts))%string. reflexivity.
Qed.

Lemma join_last (ts : list string) :
  ts <> [] -> Forall word ts ->
  exists l c, list_ascii_of_string (join " " ts) = (l ++ [c])%list /\ is_space c = false.
Proof.
  induction ts as [|t ts IH]; intros Hne Hw; [contradiction|].
  inversion Hw as [|? ? Ht Hts]; subst.
  destruct ts as [|y ts]; [apply word_last; exact Ht|].
  destruct (IH ltac:(discriminate) Hts) as [l [c [Hl Hc]]].
  exists (list_ascii_of_string t ++ " "%char :: l)%list, c. split; [|exact Hc].
  change (join " " (t :: y :: ts)) with (t ++ " " ++ join " " (y :: ts))%string.
  rewrite list_ascii_app, list_ascii_app, Hl. simpl. rewrite <- app_assoc. reflexivity.
Qed.

Lemma trim_left_head (c : ascii) (s : string) :
  is_space c = false -> trim_left (String c s) = String c s.
Proof. intros H. simpl. rewrite H. reflexivity. Qed.

Lemma rev_string_involutive (s : string) : rev_string (rev_string s) = s.
Proof.
  unfold rev_string. rewrite list_ascii_of_string_of_list_ascii, rev_involutive.
  apply string_of_list_ascii_of_string.
Qed.

(** [strings.TrimSpace] of [j] and a space, when [j] starts and ends with a
    non-space byte. *)
Lemma trim_space_trailing (j : string) (c0 : ascii) (j' : string) (l : list ascii) (c : ascii) :
  j = String c0 j' -> is_space c0 = false ->
  list_ascii_of_string j = (l ++ [c])%list -> is_space c = false ->
  trim_space (j ++ " ") = j.
Proof.
  intros Hj Hc0 Hl Hc. unfold trim_space.
  assert (E1 : trim_left (j ++ " ") = (j ++ " ")%string)
    by (rewrite Hj; apply trim_left_head; exact Hc0).
  rewrite E1.
  assert (Hr : rev_string (j ++ " ") = String " " (rev_string j)).
  { unfold rev_string. rewrite list_ascii_app. simpl. rewrite rev_app_distr. reflexivity. }
  rewrite Hr. simpl (trim_left (String " " _)).
  assert (Hh : rev_string j = String c (string_of_list_ascii (rev l))).
  { unfold rev_string. rewrite Hl, rev_app_distr. reflexivity. }
  rewrite Hh, trim_left_head by exact Hc. rewrite <- Hh. apply rev_string_involutive.
Qed.

(** *** The option parsers *)

Lemma values_after_cons (key cur nxt : string) (tl : list string) :
  OptionSpec.values_after key (cur :: nxt :: tl) =
  if String.eqb cur key then nxt :: OptionSpec.values_after key (nxt :: tl)
  else OptionSpec.values_after key (nxt :: tl).
Proof. reflexivity. Qed.

Lemma uci_walk_cons (o : UciGo.Option) (cur nxt : string) (tl : list string) :
  UciGo.walk o (cur :: nxt :: tl) = UciGo.walk (UciGo.walk_step o cur nxt) (nxt :: tl).
Proof. reflexivity. Qed.

Ltac key_cases cur :=
  destruct (String.eqb_spec cur "type") as [->|?];
  [|destruct (String.eqb_spec cur "default") as [->|?];
  [|destruct (String.eqb_spec cur "min") as [->|?];
  [|destruct (String.eqb_spec cur "max") as [->|?];
  [|destruct (String.eqb_spec cur "var") as [->|?]]]]].

(** The key/value walk of [uci.go] in closed form: each of [type],
    [default], [min], [max] takes the token after its last occurrence
    (the receiver's value if there is none); [Vars] gets the token after
    every occurrence of [var] appended, in order. *)
Lemma uci_walk_closed (l : list string) (o : UciGo.Option) :
  UciGo.walk o l =
  UciGo.mkOption (UciGo.Name o)
    (last (OptionSpec.values_after "type" l) (UciGo.Type_ o))
    (last (OptionSpec.values_after "default" l) (UciGo.Default o))
    (last (OptionSpec.values_after "min" l) (UciGo.Min o))
    (last (OptionSpec.values_after "max" l) (UciGo.Max o))
    (UciGo.Vars o ++ OptionSpec.values_after "var" l).
Proof.
  revert o; induction l as [|cur l IH]; intros o.
  - destruct o; simpl; rewrite app_nil_r; reflexivity.
  - destruct l as [|nxt tl].
    + destruct o; simpl; rewrite app_nil_r; reflexivity.
    + rewrite uci_walk_cons, IH, !values_after_cons.
      generalize (nxt :: tl) as L; intros L.
      unfold UciGo.walk_step.
      key_cases cur; cbn -[last]; rewrite ?last_cons_default, <- ?app_assoc; reflexivity.
Qed.

Lemma parsed_ints_cons (v : string) (vs : list string) (n : Z) :
  atoi v = Some n -> OptionSpec.parsed_ints (v :: vs) = n :: OptionSpec.parsed_ints vs.
Proof. intros H. unfold OptionSpec.parsed_ints. simpl. rewrite H. reflexivity. Qed.

Lemma option_walk_closed (l : list string) (o : OptionGo.Option) :
  snd (OptionGo.walk o l) = None ->
  fst (OptionGo.walk o l) =
  OptionGo.mkOption (OptionGo.Name o)
    (last (OptionSpec.values_after "type" l) (OptionGo.Type_ o))
    (last (OptionSpec.values_after "default" l) (OptionGo.Default o))
    (last (OptionSpec.parsed_ints (OptionSpec.values_after "min" l)) (OptionGo.Min o))
    (last (OptionSpec.parsed_ints (OptionSpec.values_after "max" l)) (OptionGo.Max o))
    (OptionGo.Vars o ++ OptionSpec.values_after "var" l).
Proof.
  revert o; induction l as [|cur l IH]; intros o Hok.
  - destruct o; simpl; rewrite app_nil_r; reflexivity.
  - destruct l as [|nxt tl].
    + destruct o; simpl; rewrite app_nil_r; reflexivity.
    + rewrite walk_cons in Hok |- *. rewrite !values_after_cons.
      unfold OptionGo.walk_step in Hok |- *.
      key_cases cur; cbn -[last OptionGo.walk OptionSpec.values_after OptionSpec.parsed_ints] in Hok |- *;
        try (rewrite (IH _ Hok); cbn -[last OptionSpec.values_after OptionSpec.parsed_ints];
             rewrite ?last_cons_default, <- ?app_assoc; reflexivity).
      * destruct (atoi nxt) as [m|] eqn:Ha; [|discriminate].
        rewrite (IH _ Hok). cbn -[last OptionSpec.values_after OptionSpec.parsed_ints].
        rewrite (parsed_ints_cons _ _ _ Ha), last_cons_default. reflexivity.
      * destruct (atoi nxt) as [m|] eqn:Ha; [|discriminate].
        rewrite (IH _ Hok). cbn -[last OptionSpec.values_after OptionSpec.parsed_ints].
        rewrite (parsed_ints_cons _ _ _ Ha), last_cons_default. reflexivity.
Qed.

Lemma before_type_incl (l : list string) (x : string) :
  In x (OptionSpec.before_type l) -> In x l.
Proof.
  induction l as [|f l IH]; simpl; [auto|].
  destruct (String.eqb f "type"); simpl; [intros []|]. intros [H|H]; auto.
Qed.

Lemma uci_name_scan_split (l : list string) :
  UciGo.name_scan l =
  (match OptionSpec.before_type l with
   | [] => ""
   | t :: ts => (join " " (t :: ts) ++ " ")%string
   end, OptionSpec.from_type l).
Proof.
  induction l as [|f l IH]; simpl; [reflexivity|].
  destruct (String.eqb f "type"); [reflexivity|].
  rewrite IH. f_equal.
  destruct (OptionSpec.before_type l) as [|y ts]; [reflexivity|].
  change (join " " (f :: y :: ts)) with (f ++ " " ++ join " " (y :: ts))%string.
  rewrite !sapp_assoc. reflexivity.
Qed.

(** The name of [uci.go]: the tokens and a space each, trimmed, is the
    tokens joined with single spaces. *)
Lemma uci_name_trim (ts : list string) :
  Forall word ts ->
  trim_space (match ts with [] => "" | t :: ts' => (join " " (t :: ts') ++ " ")%string end) =
  join " " ts.
Proof.
  intros Hw. destruct ts as [|t ts']; [reflexivity|].
  inversion Hw as [|? ? Ht _]; subst.
  destruct (join_first t ts') as [rest Hj].
  destruct (word_first t Ht) as [c0 [t' [Et Hc0]]].
  destruct (join_last (t :: ts') ltac:(discriminate) Hw) as [l [c [Hl Hc]]].
  apply (trim_space_trailing _ c0 (t' ++ rest) l c); [|exact Hc0|exact Hl|exact Hc].
  rewrite Hj, Et. reflexivity.
Qed.

Lemma firstn_two (fs : list string) :
  firstn 2 fs = ["option"; "name"] -> exists rest, fs = "option" :: "name" :: rest.
Proof.
  destruct fs as [|a [|b rest]]; simpl; try discriminate.
  intros H; inversion H; subst. exists rest; reflexivity.
Qed.

(** [UnmarshalText] of [src/uci/uci.go] in closed form: on a line of at
    least 5 tokens that starts with [option name] it never fails; the name
    is the tokens before the first [type] joined with single spaces; each
    of [type], [default], [min], [max] takes the token after its last
    occurrence from [type] on, the receiver's value when there is none;
    and the tokens after every [var] are appended to the receiver's
    [Vars]. *)
Theorem uci_unmarshal_closed (o : UciGo.Option) (text : string) :
  (5 <= List.length (fields text))%nat ->
  firstn 2 (fields text) = ["option"; "name"] ->
  let r := skipn 2 (fields text) in
  let k := OptionSpec.from_type r in
  UciGo.UnmarshalText o text =
  (UciGo.mkOption (join " " (OptionSpec.before_type r))
     (last (OptionSpec.values_after "type" k) (UciGo.Type_ o))
     (last (OptionSpec.values_after "default" k) (UciGo.Default o))
     (last (OptionSpec.values_after "min" k) (UciGo.Min o))
     (last (OptionSpec.values_after "max" k) (UciGo.Max o))
     (UciGo.Vars o ++ OptionSpec.values_after "var" k), None).
Proof.
  intros Hlen Hpre. cbv zeta.
  pose proof (fields_words text) as Hw.
  destruct (firstn_two _ Hpre) as [rest Hf].
  unfold UciGo.UnmarshalText. rewrite Hf in *. simpl skipn.
  destruct (Nat.ltb_spec (List.length ("option" :: "name" :: rest)) 5) as [H|H];
    [simpl in *; lia|].
  cbn [String.eqb negb]. simpl (negb _).
  rewrite uci_name_scan_split. rewrite uci_walk_closed. cbn [UciGo.Name].
  rewrite uci_name_trim; [reflexivity|].
  inversion Hw as [|? ? _ Hw1]; inversion Hw1 as [|? ? _ Hw2]; subst.
  apply Forall_forall. intros x Hx. apply before_type_incl in Hx.
  rewrite Forall_forall in Hw2. exact (Hw2 x Hx).
Qed.

(** [UnmarshalText] of [src/uci/option.go] in closed form, when it returns
    [nil]: the name is the tokens before the first [type] joined with
    single spaces; [type] and [default] take the token after their last
    occurrence from [type] on, [min] and [max] the integer after theirs,
    the receiver's value when there is none; the tokens after every [var]
    are appended to the receiver's [Vars]. *)
Theorem option_unmarshal_closed (o : OptionGo.Option) (text : string) :
  snd (OptionGo.UnmarshalText o text) = None ->
  let r := skipn 2 (fields text) in
  let k := OptionSpec.from_type r in
  fst (OptionGo.UnmarshalText o text) =
  OptionGo.mkOption (join " " (OptionSpec.before_type r))
     (last (OptionSpec.values_after "type" k) (OptionGo.Type_ o))
     (last (OptionSpec.values_after "default" k) (OptionGo.Default o))
     (last (OptionSpec.parsed_ints (OptionSpec.values_after "min" k)) (OptionGo.Min o))
     (last (OptionSpec.parsed_ints (OptionSpec.values_after "max" k)) (OptionGo.Max o))
     (OptionGo.Vars o ++ OptionSpec.values_after "var" k).
Proof.
  intros Hok. cbv zeta. revert Hok. unfold OptionGo.UnmarshalText.
  destruct (fields text) as [|f0 [|f1 rest]]; [discriminate|discriminate|].
  destruct (List.length (f0 :: f1 :: rest) <? 5)%nat; [discriminate|].
  destruct (String.eqb f0 "option"); [|discriminate].
  destruct (String.eqb f1 "name"); [|discriminate].
  simpl negb. cbv iota. rewrite name_scan_split. simpl skipn.
  intros Hok. rewrite (option_walk_closed _ _ Hok). reflexivity.
Qed.

(** ** The outcomes of the handshakes *)

(** The outcomes of the handshake [UCI] of [src/uci/uci.go] when [uci] is
    written, over an engine that sends one line per [Read]: over lines
    [pre] that hold no [uciok] and no malformed option, the client takes
    the last [id name ] and [id author ] values (its own when there is
    none) and appends the options; then a [uciok] line ends it with
    [s.Err()], which is [nil] unless the end of the stream came in the
    same [Read] as [uciok] with a read error, and [c.r] left after that
    line; the end of the input ends it with the scanner's error ([nil] at
    end of file); an [option] line that fails to parse ends it with that
    error, the values of [pre] kept and [c.r] left after the bad line. *)
Theorem uci_handshake_outcomes (c : UciGo.Client) (pre post : list string) (e : stream_end) (b : bool) :
  w_err (UciGo.w c) = None ->
  uci_plain pre -> Forall engine_line pre -> Forall engine_line post ->
  let c1 := UciGo.set_w c (mkWriter (w_out (UciGo.w c) ++ "uci" ++ newline) None) in
  UciGo.UCI (UciGo.set_r c (line_reader (pre ++ "uciok" :: post) e b))
    = (UciGo.set_r (uci_absorb c1 pre) (line_reader post e b), line_err post e b)
  /\ UciGo.UCI (UciGo.set_r c (line_reader pre e b))
    = (UciGo.set_r (uci_absorb c1 pre) (line_reader [] e b), scan_err e)
  /\ (forall bad err, engine_line bad -> has_prefix bad "option " = true ->
        snd (UciGo.UnmarshalText UciGo.zero bad) = Some err ->
        UciGo.UCI (UciGo.set_r c (line_reader (pre ++ bad :: post) e b))
        = (UciGo.set_r (uci_absorb c1 pre) (line_reader post e b), Some err)).
Proof.
  intros Hw Hp Hpre Hpost. cbv zeta.
  destruct c as [rd [out werr] nm au opts res]; cbn [UciGo.w w_err] in Hw; subst werr.
  unfold UciGo.UCI, UciGo.send, write; cbn [UciGo.w UciGo.set_w UciGo.set_r UciGo.r w_err w_out].
  split; [|split].
  - destruct (scanned_at pre "uciok" post e b (engine_app _ _ _ Hpre engine_uciok Hpost))
      as [s1 [s [s2 [Hsc [Hm Ho]]]]].
    destruct (scanned (line_reader (pre ++ "uciok" :: post) e b)) as [steps fin].
    cbn [fst] in Hsc. subst steps. cbv beta iota.
    rewrite uci_loop_app by (rewrite Hm; exact Hp). rewrite Hm, uci_loop_uciok.
    unfold obs in Ho. injection Ho as Hr He. rewrite Hr, He. client_norm. reflexivity.
  - destruct (scanned_whole pre e b Hpre) as [Hl Ho]. rewrite lines_read_unfold in Hl.
    destruct (scanned (line_reader pre e b)) as [steps fin]. cbn [fst snd] in Hl, Ho. cbv beta iota.
    rewrite <- (app_nil_r steps), uci_loop_app by (rewrite Hl; exact Hp). rewrite Hl.
    cbn [UciGo.uci_loop]. unfold obs in Ho. injection Ho as Hr He. rewrite Hr, He. client_norm. reflexivity.
  - intros bad err Hbe Hop Hbad.
    destruct (scanned_at pre bad post e b (engine_app _ _ _ Hpre Hbe Hpost))
      as [s1 [s [s2 [Hsc [Hm Ho]]]]].
    destruct (scanned (line_reader (pre ++ bad :: post) e b)) as [steps fin].
    cbn [fst] in Hsc. subst steps. cbv beta iota.
    rewrite uci_loop_app by (rewrite Hm; exact Hp). rewrite Hm, (uci_loop_bad _ bad err) by assumption.
    unfold obs in Ho. injection Ho as Hr He. rewrite Hr. client_norm. reflexivity.
Qed.

(** The handshake [UCI] of [src/uci/client.go] has the same outcomes, its
    options parsed by [option.go]; the write of [uci] is not checked, so
    they hold whether or not the writer fails. *)
Theorem client_handshake_outcomes (c : ClientGo.Client) (pre post : list string) (e : stream_end) (b : bool) :
  client_plain pre -> Forall engine_line pre -> Forall engine_line post ->
  let c1 := ClientGo.set_w c (fprintln (ClientGo.w c) "uci") in
  ClientGo.UCI (ClientGo.set_r c (line_reader (pre ++ "uciok" :: post) e b))
    = (ClientGo.set_r (client_absorb c1 pre) (line_reader post e b), line_err post e b)
  /\ ClientGo.UCI (ClientGo.set_r c (line_reader pre e b))
    = (ClientGo.set_r (client_absorb c1 pre) (line_reader [] e b), scan_err e)
  /\ (forall bad err, engine_line bad -> has_prefix bad "option " = true ->
        snd (OptionGo.UnmarshalText OptionGo.zero bad) = Some err ->
        ClientGo.UCI (ClientGo.set_r c (line_reader (pre ++ bad :: post) e b))
        = (ClientGo.set_r (client_absorb c1 pre) (line_reader post e b), Some err)).
Proof.
  intros Hp Hpre Hpost. cbv zeta.
  destruct c as [rd wr nm au opts res].
  unfold ClientGo.UCI; cbn [ClientGo.w ClientGo.set_w ClientGo.set_r ClientGo.r].
  split; [|split].
  - destruct (scanned_at pre "uciok" post e b (engine_app _ _ _ Hpre engine_uciok Hpost))
      as [s1 [s [s2 [Hsc [Hm Ho]]]]].
    destruct (scanned (line_reader (pre ++ "uciok" :: post) e b)) as [steps fin].
    cbn [fst] in Hsc. subst steps. cbv beta iota.
    rewrite client_loop_app by (rewrite Hm; exact Hp). rewrite Hm, client_loop_uciok.
    unfold obs in Ho. injection Ho as Hr He. rewrite Hr, He. client_norm. reflexivity.
  - destruct (scanned_whole pre e b Hpre) as [Hl Ho]. rewrite lines_read_unfold in Hl.
    destruct (scanned (line_reader pre e b)) as [steps fin]. cbn [fst snd] in Hl, Ho. cbv beta iota.
    rewrite <- (app_nil_r steps), client_loop_app by (rewrite Hl; exact Hp). rewrite Hl.
    cbn [ClientGo.uci_loop]. unfold obs in Ho. injection Ho as Hr He. rewrite Hr, He. client_norm. reflexivity.
  - intros bad err Hbe Hop Hbad.
    destruct (scanned_at pre bad post e b (engine_app _ _ _ Hpre Hbe Hpost))
      as [s1 [s [s2 [Hsc [Hm Ho]]]]].
    destruct (scanned (line_reader (pre ++ bad :: post) e b)) as [steps fin].
    cbn [fst] in Hsc. subst steps. cbv beta iota.
    rewrite client_loop_app by (rewrite Hm; exact Hp). rewrite Hm, (client_loop_bad _ bad err) by assumption.
    unfold obs in Ho. injection Ho as Hr He. rewrite Hr. client_norm. reflexivity.
Qed.

(** The outcomes of [UCI] in [src/unnamed/part_000], over an engine that
    sends one line per [Read]: after [pre], a [uciok] line makes the loop
    read one more line, which is dropped unparsed, before it returns the
    last name, the last author and the options of [pre] with [s.Err()]
    at that point ([nil] unless the end of the stream came with that
    line with a read error); when [uciok] is the last line, the scanner's
    error at the end of the input is returned; a malformed [option] line
    returns its error with the name, the author and the options all reset
    to zero values. *)
Theorem part000_handshake_outcomes (c : Part000.Client) (pre post : list string)
    (x : string) (e : stream_end) (b : bool) :
  client_plain pre -> Forall engine_line pre -> engine_line x -> Forall engine_line post ->
  let nm := last (id_values "id name " pre) "" in
  let au := last (id_values "id author " pre) "" in
  let w1 := fprintln (Part000.w c) "uci" in
  Part000.UCI (Part000.mkClient (line_reader (pre ++ "uciok" :: x :: post) e b) (Part000.w c))
    = (Part000.mkClient (line_reader post e b) w1, (nm, au, parsed_go_options pre, line_err post e b))
  /\ Part000.UCI (Part000.mkClient (line_reader (pre ++ ["uciok"]) e b) (Part000.w c))
    = (Part000.mkClient (line_reader [] e b) w1, (nm, au, parsed_go_options pre, scan_err e))
  /\ (forall bad err, engine_line bad -> has_prefix bad "option " = true ->
        snd (OptionGo.UnmarshalText OptionGo.zero bad) = Some err ->
        Part000.UCI (Part000.mkClient (line_reader (pre ++ bad :: post) e b) (Part000.w c))
        = (Part000.mkClient (line_reader post e b) w1, ("", "", [], Some err))).
Proof.
  intros Hp Hpre Hx Hpost. cbv zeta. unfold Part000.UCI; cbn [Part000.w Part000.r].
  split; [|split].
  - assert (Hall : Forall engine_line ((pre ++ ["uciok"]) ++ x :: post)).
    { rewrite <- app_assoc. apply engine_app; [exact Hpre|exact engine_uciok|constructor; assumption]. }
    destruct (scanned_at (pre ++ ["uciok"]) x post e b Hall) as [s1 [s [s2 [Hsc [Hm Ho]]]]].
    rewrite <- app_assoc in Hsc. cbn [app] in Hsc.
    destruct (scanned (line_reader (pre ++ "uciok" :: x :: post) e b)) as [steps fin].
    cbn [fst] in Hsc. subst steps. cbv beta iota.
    destruct (steps_at _ _ [] _ Hm) as [t1 [t [t2 [-> [Ht1 Ht2]]]]].
    destruct t2; [|cbn in Ht2; discriminate]. rewrite <- app_assoc. cbn [app].
    rewrite part000_loop_app by (rewrite Ht1; exact Hp). rewrite Ht1.
    rewrite (proj1 (part000_loop_uciok _ _ _ _ _ _ _ _)).
    unfold obs in Ho. injection Ho as Hr He. rewrite Hr, He. client_norm. reflexivity.
  - assert (Hall : Forall engine_line (pre ++ ["uciok"]))
      by (apply engine_app; [exact Hpre|exact engine_uciok|constructor]).
    destruct (scanned_whole _ e b Hall) as [Hl Ho]. rewrite lines_read_unfold in Hl.
    destruct (scanned (line_reader (pre ++ ["uciok"]) e b)) as [steps fin]. cbn [fst snd] in Hl, Ho. cbv beta iota.
    destruct (steps_at _ _ [] _ Hl) as [t1 [t [t2 [-> [Ht1 Ht2]]]]].
    destruct t2; [|cbn in Ht2; discriminate].
    rewrite part000_loop_app by (rewrite Ht1; exact Hp). rewrite Ht1.
    rewrite (proj2 (part000_loop_uciok _ _ _ _ "" t [] _)).
    unfold obs in Ho. injection Ho as Hr He. rewrite Hr, He. client_norm. reflexivity.
  - intros bad err Hbe Hop Hbad.
    destruct (scanned_at pre bad post e b (engine_app _ _ _ Hpre Hbe Hpost))
      as [s1 [s [s2 [Hsc [Hm Ho]]]]].
    destruct (scanned (line_reader (pre ++ bad :: post) e b)) as [steps fin].
    cbn [fst] in Hsc. subst steps. cbv beta iota.
    rewrite part000_loop_app by (rewrite Hm; exact Hp).
    rewrite (part000_loop_bad _ _ _ bad err) by assumption.
    unfold obs in Ho. injection Ho as Hr He. rewrite Hr. client_norm. reflexivity.
Qed.

(** Witness: two names, then an option, then [uciok], each line in its
    own [Read]. *)
Lemma uci_handshake_outcomes_witness :
  let c := UciGo.NewClient (mkReader [] EOF) empty_writer in
  let pre := ["id name A"; "id name B"; "option name X type check"] in
  UciGo.UCI (UciGo.set_r c (line_reader (pre ++ "uciok" :: ["readyok"]) EOF false))
  = (UciGo.set_r (uci_absorb (UciGo.set_w c (mkWriter ("" ++ "uci" ++ newline) None)) pre)
       (line_reader ["readyok"] EOF false), line_err ["readyok"] EOF false).
Proof.
  exact (proj1 (uci_handshake_outcomes (UciGo.NewClient (mkReader [] EOF) empty_writer)
    ["id name A"; "id name B"; "option name X type check"] ["readyok"] EOF false
    eq_refl ltac:(plain_tac) ltac:(engines_tac) ltac:(engines_tac))).
Defined.

(** Witness: an author, then a malformed option. *)
Lemma client_handshake_outcomes_witness :
  let c := ClientGo.NewClient (mkReader [] EOF) empty_writer in
  let pre := ["id author A"; "option name X type spin min 1"] in
  ClientGo.UCI (ClientGo.set_r c (line_reader (pre ++ "option name Y type spin max z" :: ["uciok"]) EOF true))
  = (ClientGo.set_r (client_absorb (ClientGo.set_w c (fprintln (ClientGo.w c) "uci")) pre)
       (line_reader ["uciok"] EOF true), Some OptionGo.todo).
Proof.
  exact (proj2 (proj2 (client_handshake_outcomes (ClientGo.NewClient (mkReader [] EOF) empty_writer)
    ["id author A"; "option name X type spin min 1"] ["uciok"] EOF true ltac:(plain_tac)
    ltac:(engines_tac) ltac:(engines_tac)))
    "option name Y type spin max z" OptionGo.todo ltac:(engine_line_tac) eq_refl eq_refl).
Defined.

(** Witness: the line after [uciok] is an option, and it is dropped; the
    read error that comes with it is returned. *)
Lemma part000_handshake_outcomes_witness :
  let pre := ["id name E"; "option name X type check"] in
  Part000.UCI (Part000.mkClient (line_reader (pre ++ "uciok" :: "option name Y type check" :: [])
                                   (ReadErr "EIO") true) empty_writer)
  = (Part000.mkClient (line_reader [] (ReadErr "EIO") true) (fprintln empty_writer "uci"),
     (last (id_values "id name " pre) "", last (id_values "id author " pre) "",
      parsed_go_options pre, line_err [] (ReadErr "EIO") true)).
Proof.
  exact (proj1 (part000_handshake_outcomes (Part000.mkClient (mkReader [] EOF) empty_writer)
    ["id name E"; "option name X type check"] [] "option name Y type check" (ReadErr "EIO") true
    ltac:(plain_tac) ltac:(engines_tac) ltac:(engine_line_tac) ltac:(engines_tac))).
Defined.

(** ** Writes and the ready check *)

Lemma uci_send_fails (c : UciGo.Client) (err s : string) :
  w_err (UciGo.w c) = Some err -> UciGo.send c s = (c, Some err).
Proof.
  intros Hw. destruct c as [rd [out werr] nm au opts res]; simpl in Hw; subst werr.
  reflexivity.
Qed.

(** In [src/uci/uci.go] every command goes through [send], which returns
    the writer's error: once the writer fails, [UCI], [IsReady], [Debug],
    [Register], [UCINewGame], [Stop], [PonderHit] and [Quit] all return
    that error, read no input and leave the client as it was. *)
Theorem uci_commands_report_write_error (c : UciGo.Client) (err : string) :
  w_err (UciGo.w c) = Some err ->
  UciGo.UCI c = (c, Some err) /\ UciGo.IsReady c = (c, Some err)
  /\ (forall on, UciGo.Debug c on = (c, Some err))
  /\ (forall rp, UciGo.Register c rp = (c, Some err))
  /\ UciGo.UCINewGame c = (c, Some err) /\ UciGo.Stop c = (c, Some err)
  /\ UciGo.PonderHit c = (c, Some err) /\ UciGo.Quit c = (c, Some err).
Proof.
  intros Hw.
  unfold UciGo.UCI, UciGo.IsReady, UciGo.Debug, UciGo.Register, UciGo.UCINewGame,
    UciGo.Stop, UciGo.PonderHit, UciGo.Quit.
  repeat split; intros; try destruct on; try destruct (UciGo.Later rp);
    rewrite (uci_send_fails c err _ Hw); reflexivity.
Qed.

(** Witness: a writer that fails with [EPIPE]. *)
Lemma uci_commands_report_write_error_witness :
  let c := UciGo.NewClient (mkReader ["uciok"] EOF) (mkWriter "" (Some "EPIPE")) in
  UciGo.UCI c = (c, Some "EPIPE").
Proof.
  exact (proj1 (uci_commands_report_write_error
    (UciGo.NewClient (mkReader ["uciok"] EOF) (mkWriter "" (Some "EPIPE"))) "EPIPE" eq_refl)).
Defined.

Lemma uci_isready_readyok (s : Scanner) (ls : list (string * Scanner)) (fin : Scanner) :
  UciGo.isready_loop (("readyok", s) :: ls) fin = (s, None)
  /\ ClientGo.isready_loop (("readyok", s) :: ls) fin = (s, None)
  /\ Part000.isready_loop (("readyok", s) :: ls) fin = (s, None).
Proof. repeat split. Qed.

(** [IsReady] of [src/uci/uci.go], with a working writer and an engine
    that sends one line per [Read], writes [isready] and discards the
    lines up to and including the first [readyok], returning [nil] with
    [c.r] left after that line; without a [readyok] it consumes all the
    input and returns the scanner's error, [nil] at end of file. *)
Theorem uci_isready_waits (c : UciGo.Client) (pre post : list string) (e : stream_end) (b : bool) :
  w_err (UciGo.w c) = None -> ~ In "readyok" pre ->
  Forall engine_line pre -> Forall engine_line post ->
  let c1 := UciGo.set_w c (mkWriter (w_out (UciGo.w c) ++ "isready" ++ newline) None) in
  UciGo.IsReady (UciGo.set_r c (line_reader (pre ++ "readyok" :: post) e b))
    = (UciGo.set_r c1 (line_reader post e b), None)
  /\ UciGo.IsReady (UciGo.set_r c (line_reader pre e b))
    = (UciGo.set_r c1 (line_reader [] e b), scan_err e).
Proof.
  intros Hw Hin Hpre Hpost. cbv zeta.
  destruct c as [rd [out werr] nm au opts res]; cbn [UciGo.w w_err] in Hw; subst werr.
  unfold UciGo.IsReady, UciGo.send, write; cbn [UciGo.w UciGo.set_w UciGo.set_r UciGo.r w_err w_out].
  split.
  - destruct (scanned_at pre "readyok" post e b (engine_app _ _ _ Hpre engine_readyok Hpost))
      as [s1 [s [s2 [Hsc [Hm Ho]]]]].
    destruct (scanned (line_reader (pre ++ "readyok" :: post) e b)) as [steps fin].
    cbn [fst] in Hsc. subst steps. cbv beta iota.
    rewrite uci_isready_loop_app by (rewrite Hm; exact Hin).
    rewrite (proj1 (uci_isready_readyok _ _ _)).
    unfold obs in Ho. injection Ho as Hr He. rewrite Hr. client_norm. reflexivity.
  - destruct (scanned_whole pre e b Hpre) as [Hl Ho]. rewrite lines_read_unfold in Hl.
    destruct (scanned (line_reader pre e b)) as [steps fin]. cbn [fst snd] in Hl, Ho. cbv beta iota.
    rewrite <- (app_nil_r steps), uci_isready_loop_app by (rewrite Hl; exact Hin).
    cbn [UciGo.isready_loop]. unfold obs in Ho. injection Ho as Hr He. rewrite Hr, He. client_norm. reflexivity.
Qed.

(** Witness: an [info] line before [readyok]. *)
Lemma uci_isready_waits_witness :
  let c := UciGo.NewClient (mkReader [] EOF) empty_writer in
  UciGo.IsReady (UciGo.set_r c (line_reader (["info string x"] ++ "readyok" :: ["bestmove e2e4"]) EOF false))
  = (UciGo.set_r (UciGo.set_w c (mkWriter ("" ++ "isready" ++ newline) None))
       (line_reader ["bestmove e2e4"] EOF false), None).
Proof.
  exact (proj1 (uci_isready_waits (UciGo.NewClient (mkReader [] EOF) empty_writer)
    ["info string x"] ["bestmove e2e4"] EOF false eq_refl ltac:(simpl; intuition discriminate)
    ltac:(engines_tac) ltac:(engines_tac))).
Defined.

(** [IsReady] of [src/uci/client.go] and of [src/unnamed/part_000] writes
    [isready] with its error discarded and, like that of [uci.go],
    discards the lines up to the first [readyok] and returns [nil], or
    reaches the end of the input and returns the scanner's error. *)
Theorem client_isready_waits (c : ClientGo.Client) (d : Part000.Client)
    (pre post : list string) (e : stream_end) (b : bool) :
  ~ In "readyok" pre -> Forall engine_line pre -> Forall engine_line post ->
  let c1 := ClientGo.set_w c (fprintln (ClientGo.w c) "isready") in
  let w1 := fprintln (Part000.w d) "isready" in
  ClientGo.IsReady (ClientGo.set_r c (line_reader (pre ++ "readyok" :: post) e b))
    = (ClientGo.set_r c1 (line_reader post e b), None)
  /\ ClientGo.IsReady (ClientGo.set_r c (line_reader pre e b))
    = (ClientGo.set_r c1 (line_reader [] e b), scan_err e)
  /\ Part000.IsReady (Part000.mkClient (line_reader (pre ++ "readyok" :: post) e b) (Part000.w d))
    = (Part000.mkClient (line_reader post e b) w1, None)
  /\ Part000.IsReady (Part000.mkClient (line_reader pre e b) (Part000.w d))
    = (Part000.mkClient (line_reader [] e b) w1, scan_err e).
Proof.
  intros Hin Hpre Hpost. cbv zeta.
  destruct c as [rd wr nm au opts res].
  unfold ClientGo.IsReady, Part000.IsReady; cbn [ClientGo.w ClientGo.set_w ClientGo.set_r ClientGo.r Part000.r].
  destruct (scanned_at pre "readyok" post e b (engine_app _ _ _ Hpre engine_readyok Hpost))
    as [s1 [s [s2 [Hsc [Hm Ho]]]]].
  destruct (scanned_whole pre e b Hpre) as [Hl Ho']. rewrite lines_read_unfold in Hl.
  destruct (scanned (line_reader (pre ++ "readyok" :: post) e b)) as [steps fin].
  cbn [fst] in Hsc. subst steps. cbv beta iota.
  destruct (scanned (line_reader pre e b)) as [steps' fin']. cbn [fst snd] in Hl, Ho'. cbv beta iota.
  assert (Hin1 : ~ In "readyok" (List.map fst s1)) by (rewrite Hm; exact Hin).
  assert (Hin2 : ~ In "readyok" (List.map fst steps')) by (rewrite Hl; exact Hin).
  destruct (client_isready_loop_app s1 (("readyok", s) :: s2) fin Hin1) as [H1 H2].
  destruct (client_isready_loop_app steps' [] fin' Hin2) as [H3 H4].
  rewrite app_nil_r in H3, H4. rewrite H1, H2, H3, H4.
  destruct (uci_isready_readyok s s2 fin) as [_ [H5 H6]]. rewrite H5, H6.
  cbn [ClientGo.isready_loop Part000.isready_loop].
  unfold obs in Ho, Ho'. injection Ho as Hr _. injection Ho' as Hr' He'.
  rewrite Hr, Hr', He'. repeat split.
Qed.

(** Witness: a read error before any [readyok]. *)
Lemma client_isready_waits_witness :
  let c := ClientGo.NewClient (mkReader [] EOF) empty_writer in
  ClientGo.IsReady (ClientGo.set_r c (line_reader ["info string x"] (ReadErr "EIO") false))
  = (ClientGo.set_r (ClientGo.set_w c (fprintln empty_writer "isready"))
       (line_reader [] (ReadErr "EIO") false), scan_err (ReadErr "EIO")).
Proof.
  exact (proj1 (proj2 (client_isready_waits (ClientGo.NewClient (mkReader [] EOF) empty_writer)
    (Part000.NewClient (mkReader [] EOF) empty_writer)
    ["info string x"] [] (ReadErr "EIO") false ltac:(simpl; intuition discriminate)
    ltac:(engines_tac) ltac:(engines_tac)))).
Defined.

(** Witness of the closed form of [uci.go]'s parser. *)
Lemma uci_unmarshal_closed_witness :
  UciGo.UnmarshalText UciGo.zero "option name Skill  Level type spin default 3 min 0 max 20"
  = (UciGo.mkOption "Skill Level" "spin" "3" "0" "20" [], None).
Proof.
  exact (uci_unmarshal_closed UciGo.zero "option name Skill  Level type spin default 3 min 0 max 20"
    ltac:(vm_compute; lia) eq_refl).
Defined.

(** Witness of the closed form of [option.go]'s parser. *)
Lemma option_unmarshal_closed_witness :
  fst (OptionGo.UnmarshalText OptionGo.zero "option name Threads type spin min 1 max 8 min 2")
  = OptionGo.mkOption "Threads" "spin" "" 2%Z 8%Z [].
Proof.
  exact (option_unmarshal_closed OptionGo.zero
    "option name Threads type spin min 1 max 8 min 2" eq_refl).
Defined.

(** ** What [strings.Fields] recovers from the [go] command *)

Lemma uint_no_space (u : Decimal.uint) : no_space (NilEmpty.string_of_uint u) = true.
Proof. induction u; unfold no_space in *; simpl; auto. Qed.

Lemma itoa_word (z : Z) : word (itoa z).
Proof.
  unfold itoa, word. destruct z as [|p|p]; simpl.
  - split; [discriminate|reflexivity].
  - split; [|apply uint_no_space].
    pose proof (DecimalPos.Unsigned.to_uint_nonnil p) as H.
    destruct (Pos.to_uint p); [contradiction|discriminate..].
  - split; [discriminate|]. unfold no_space; simpl. apply uint_no_space.
Qed.

Lemma fields_from_sep (a b cur : string) :
  fields_from (a ++ String " " b) cur = (fields_from a cur ++ fields_from b "")%list.
Proof.
  revert cur; induction a as [|c a IH]; intros cur.
  - simpl. destruct (String.eqb cur ""); reflexivity.
  - simpl. destruct (is_space c); [destruct (String.eqb cur "")|]; rewrite IH; reflexivity.
Qed.

Lemma fields_space (b : string) : fields (String " " b) = fields b.
Proof. unfold fields. rewrite fields_from_space. reflexivity. Qed.

Lemma spaced_app (P R : string) : spaced P -> spaced R -> spaced (P ++ R).
Proof.
  intros [->|[x ->]] HR; [exact HR|]. right. exists (x ++ R)%string. reflexivity.
Qed.

Lemma fields_spaced_app (P R : string) :
  spaced P -> spaced R -> fields (P ++ R) = (fields P ++ fields R)%list.
Proof.
  intros [->|[x ->]] [->|[r ->]].
  - reflexivity.
  - reflexivity.
  - rewrite !sapp_nil_r. simpl. rewrite app_nil_r. reflexivity.
  - change (String " " x ++ String " " r)%string with (String " " (x ++ String " " r))%string.
    rewrite !fields_space. unfold fields. apply fields_from_sep.
Qed.

Lemma fields_head_spaced (t S : string) :
  word t -> spaced S -> fields (t ++ S) = t :: fields S.
Proof.
  intros Ht [->|[s ->]].
  - rewrite sapp_nil_r. apply fields_word; exact Ht.
  - rewrite fields_word_app by exact Ht. rewrite fields_space. reflexivity.
Qed.

Lemma spaced_flag (b : bool) (k : string) : spaced (flag b k).
Proof. destruct b; [right; eexists; reflexivity|left; reflexivity]. Qed.

Lemma spaced_kv (b : bool) (k v : string) : spaced (kv b k v).
Proof. destruct b; [right; eexists; reflexivity|left; reflexivity]. Qed.

Lemma fields_flag (b : bool) (k : string) :
  word k -> fields (flag b k) = if b then [k] else [].
Proof.
  intros Hk. destruct b; [|reflexivity]. unfold flag.
  change (" " ++ k)%string with (String " " k). rewrite fields_space. apply fields_word; exact Hk.
Qed.

Lemma fields_join_words (ts : list string) : Forall word ts -> fields (join " " ts) = ts.
Proof.
  induction ts as [|t ts IH]; intros Hw; [reflexivity|].
  inversion Hw as [|? ? Ht Hw']; subst.
  destruct ts as [|t' ts'].
  - apply fields_word; exact Ht.
  - change (join " " (t :: t' :: ts')) with (t ++ String " " (join " " (t' :: ts')))%string.
    rewrite fields_word_app by exact Ht. rewrite IH by exact Hw'. reflexivity.
Qed.

Lemma fields_kv (b : bool) (k v : string) :
  word k -> word v -> fields (kv b k v) = if b then [k; v] else [].
Proof.
  intros Hk Hv. destruct b; [|reflexivity]. unfold kv.
  change (" " ++ k ++ " " ++ v)%string with (String " " (k ++ String " " v)).
  rewrite fields_space, fields_word_app by exact Hk. rewrite fields_word by exact Hv.
  reflexivity.
Qed.

Lemma go_text_pieces (p : ClientGo.GoParameters) :
  ClientGo.go_text p =
  ("go" ++ flag (ClientGo.Ponder p) "ponder"
   ++ flag (ClientGo.Infinite p) "infinite"
   ++ kv (0 <? ClientGo.Mate p)%Z "mate" (itoa (ClientGo.Mate p))
   ++ kv (0 <? ClientGo.MoveTime p)%Z "movetime" (itoa (Milliseconds (ClientGo.MoveTime p)))
   ++ kv (0 <? ClientGo.WhiteTime p)%Z "wtime" (itoa (Milliseconds (ClientGo.WhiteTime p)))
   ++ kv (0 <? ClientGo.BlackTime p)%Z "btime" (itoa (Milliseconds (ClientGo.BlackTime p)))
   ++ kv (0 <? ClientGo.WhiteIncrement p)%Z "winc" (itoa (Milliseconds (ClientGo.WhiteIncrement p)))
   ++ kv (0 <? ClientGo.BlackIncrement p)%Z "binc" (itoa (Milliseconds (ClientGo.BlackIncrement p)))
   ++ kv (0 <? ClientGo.MovesToGo p)%Z "movestogo" (itoa (ClientGo.MovesToGo p))
   ++ kv (0 <? ClientGo.Depth p)%Z "depth" (itoa (ClientGo.Depth p))
   ++ kv (0 <? ClientGo.Nodes p)%Z "nodes" (itoa (ClientGo.Nodes p))
   ++ kv (0 <? List.length (ClientGo.SearchMoves p))%nat "searchmoves" (join " " (ClientGo.SearchMoves p)))%string.
Proof. reflexivity. Qed.

Lemma word_lit (k : string) : no_space k = true -> k <> "" -> word k.
Proof. intros H1 H2; split; assumption. Qed.

Create HintDb spaced.
#[local] Hint Resolve spaced_app spaced_flag spaced_kv : spaced.

(** [Go] of [src/uci/client.go] writes a command that [strings.Fields]
    splits into [go], the flags that are set, each positive count or
    duration as its key followed by its decimal value (durations in whole
    milliseconds), and [searchmoves] followed by the moves when there are
    any, in the order of the code; fields that are zero or negative are
    left out. *)
Theorem go_text_tokens (p : ClientGo.GoParameters) :
  Forall word (ClientGo.SearchMoves p) ->
  fields (ClientGo.go_text p) = go_tokens p.
Proof.
  intros Hm. rewrite go_text_pieces.
  rewrite fields_head_spaced
    by first [apply word_lit; [reflexivity|discriminate] | auto 20 with spaced].
  rewrite !fields_spaced_app by auto 20 with spaced.
  rewrite !fields_flag by (apply word_lit; [reflexivity|discriminate]).
  rewrite !fields_kv by (first [apply itoa_word | apply word_lit; [reflexivity|discriminate]]).
  unfold go_tokens, kv. f_equal.
  destruct (0 <? List.length (ClientGo.SearchMoves p))%nat eqn:Hl; [|reflexivity].
  change (" " ++ "searchmoves" ++ " " ++ join " " (ClientGo.SearchMoves p))%string
    with (String " " ("searchmoves" ++ String " " (join " " (ClientGo.SearchMoves p)))).
  rewrite fields_space, fields_word_app by (apply word_lit; [reflexivity|discriminate]).
  rewrite fields_join_words by exact Hm. reflexivity.
Qed.

(** Witness: two search moves. *)
Lemma go_text_tokens_witness :
  let p := ClientGo.mkGoParameters ["e2e4"; "d2d4"] true false 0%Z 1500000000%Z 0%Z 0%Z 0%Z 0%Z 0%Z 12%Z 0%Z in
  fields (ClientGo.go_text p) = go_tokens p.
Proof.
  exact (go_text_tokens (ClientGo.mkGoParameters ["e2e4"; "d2d4"] true false 0%Z 1500000000%Z 0%Z 0%Z 0%Z 0%Z 0%Z 12%Z 0%Z)
    (Forall_cons _ (word_lit "e2e4" eq_refl ltac:(discriminate))
      (Forall_cons _ (word_lit "d2d4" eq_refl ltac:(discriminate)) (Forall_nil _)))).
Defined.

(** [Go] of [src/uci/client.go] sends a positive [MoveTime] below one
    millisecond as the token [0] after [movetime]: [Milliseconds] rounds
    it down to zero.  What precedes is [go] and the flags and [mate]
    written before it; what follows is empty or starts with a space. *)
Theorem go_submillisecond_movetime (p : ClientGo.GoParameters) :
  (0 < ClientGo.MoveTime p < 1000000)%Z ->
  exists b, ClientGo.go_text p
            = ("go" ++ flag (ClientGo.Ponder p) "ponder" ++ flag (ClientGo.Infinite p) "infinite"
               ++ kv (0 <? ClientGo.Mate p)%Z "mate" (itoa (ClientGo.Mate p))
               ++ " movetime 0" ++ b)%string
            /\ spaced b.
Proof.
  intros Hd. rewrite go_text_pieces.
  assert (Hb : (0 <? ClientGo.MoveTime p)%Z = true) by (apply Z.ltb_lt; lia).
  assert (Hm : Milliseconds (ClientGo.MoveTime p) = 0%Z)
    by (unfold Milliseconds; apply Z.quot_small; lia).
  rewrite Hb, Hm. eexists. split; [reflexivity|]. auto 20 with spaced.
Qed.

(** Witness: half a millisecond. *)
Lemma go_submillisecond_movetime_witness :
  exists b, ClientGo.go_text (ClientGo.mkGoParameters [] false false 0%Z 500000%Z 0%Z 0%Z 0%Z 0%Z 0%Z 0%Z 0%Z)
            = ("go" ++ flag false "ponder" ++ flag false "infinite"
               ++ kv (0 <? 0)%Z "mate" (itoa 0) ++ " movetime 0" ++ b)%string
            /\ spaced b.
Proof.
  exact (go_submillisecond_movetime (ClientGo.mkGoParameters [] false false 0%Z 500000%Z 0%Z 0%Z 0%Z 0%Z 0%Z 0%Z 0%Z)
    ltac:(simpl; lia)).
Defined.

(** ** Line structure of what the clients write *)

Lemma lines_from_line (a b cur : string) :
  no_newline a = true -> lines_from (a ++ newline ++ b) cur = (cur ++ a)%string :: lines_from b "".
Proof.
  revert cur; induction a as [|c a IH]; intros cur H.
  - simpl. rewrite sapp_nil_r. reflexivity.
  - unfold no_newline in H. simpl in H. apply andb_true_iff in H as [Hc H].
    apply negb_true_iff in Hc. simpl. rewrite Hc.
    rewrite IH by exact H. rewrite sapp_assoc. reflexivity.
Qed.

Lemma lines_one (a : string) : no_newline a = true -> lines (a ++ newline) = [a].
Proof.
  intros H. unfold lines. rewrite <- (sapp_nil_r newline).
  rewrite lines_from_line by exact H. reflexivity.
Qed.

Lemma no_newline_app (a b : string) : no_newline (a ++ b) = no_newline a && no_newline b.
Proof. unfold no_newline. rewrite list_ascii_app, forallb_app. reflexivity. Qed.

Lemma no_space_no_newline (t : string) : no_space t = true -> no_newline t = true.
Proof.
  unfold no_space, no_newline. induction (list_ascii_of_string t) as [|c l IH]; [reflexivity|].
  simpl. intros H. apply andb_true_iff in H as [Hc H]. rewrite IH by exact H.
  destruct (Ascii.eqb_spec c (ascii_of_nat 10)) as [->|]; [discriminate|reflexivity].
Qed.

Lemma no_newline_flag (b : bool) (k : string) : no_newline k = true -> no_newline (flag b k) = true.
Proof. intros H; destruct b; [exact H|reflexivity]. Qed.

Lemma no_newline_kv (b : bool) (k v : string) :
  no_newline k = true -> no_newline v = true -> no_newline (kv b k v) = true.
Proof.
  intros Hk Hv; destruct b; [|reflexivity]. unfold kv.
  rewrite !no_newline_app, Hk, Hv. reflexivity.
Qed.

Lemma no_newline_go_text (p : ClientGo.GoParameters) :
  no_newline (join " " (ClientGo.SearchMoves p)) = true -> no_newline (ClientGo.go_text p) = true.
Proof.
  intros Hm. rewrite go_text_pieces. rewrite !no_newline_app.
  repeat (apply andb_true_intro; split);
    first [ reflexivity
          | apply no_newline_flag; reflexivity
          | apply no_newline_kv; [reflexivity|];
            first [exact Hm | apply no_space_no_newline, itoa_word] ].
Qed.

Lemma lines_writes (a b : string) :
  no_newline (a ++ b) = true -> lines (w_out (fprintln (fprint empty_writer a) b)) = [(a ++ b)%string].
Proof.
  intros H. unfold fprintln.
  change (w_out (fprint (fprint empty_writer a) (b ++ newline))) with (a ++ (b ++ newline))%string.
  rewrite <- sapp_assoc. apply lines_one; exact H.
Qed.

Lemma lines_writes3 (a b : string) :
  no_newline (a ++ b) = true ->
  lines (w_out (fprint (fprint (fprint empty_writer a) b) newline)) = [(a ++ b)%string].
Proof.
  intros H.
  change (w_out (fprint (fprint (fprint empty_writer a) b) newline)) with ((a ++ b) ++ newline)%string.
  apply lines_one; exact H.
Qed.

Lemma lines_writes1 (a : string) :
  no_newline a = true -> lines (w_out (fprint (fprint empty_writer a) newline)) = [a].
Proof.
  intros H. change (w_out (fprint (fprint empty_writer a) newline)) with (a ++ newline)%string.
  apply lines_one; exact H.
Qed.

(** [SetOption] of [src/uci/client.go] and of [src/unnamed/part_000], and
    [Go] of [client.go], end their command with no newline: on a fresh
    writer, the next command, here [stop], is read by the engine as the
    rest of the same line, with a value or without one. *)
Theorem unterminated_commands_merge (c : ClientGo.Client) (d : Part000.Client)
    (name value : string) (p : ClientGo.GoParameters) :
  no_newline name = true -> no_newline value = true ->
  no_newline (join " " (ClientGo.SearchMoves p)) = true ->
  let c0 := ClientGo.set_w c empty_writer in
  let d0 := Part000.mkClient (Part000.r d) empty_writer in
  let merged := (if String.eqb value "" then "setoption name " ++ name ++ "stop"
                 else "setoption name " ++ name ++ " value " ++ value ++ "stop")%string in
  lines (w_out (ClientGo.w (ClientGo.Stop (ClientGo.SetOption c0 name value)))) = [merged]
  /\ lines (w_out (Part000.w (Part000.Stop (Part000.SetOption d0 name value)))) = [merged]
  /\ lines (w_out (ClientGo.w (ClientGo.Stop (ClientGo.Go c0 p))))
     = [(ClientGo.go_text p ++ "stop")%string].
Proof.
  intros Hn Hv Hm. cbv zeta.
  assert (Hs : forall S, no_newline S = true ->
                lines (w_out (fprintln (fprint empty_writer S) "stop")) = [(S ++ "stop")%string])
    by (intros S HS; apply lines_writes; rewrite no_newline_app, HS; reflexivity).
  split; [|split].
  - unfold ClientGo.Stop, ClientGo.SetOption.
    destruct (String.eqb value ""); cbn [ClientGo.w ClientGo.set_w];
      (rewrite Hs; [rewrite !sapp_assoc; reflexivity
                   | rewrite !no_newline_app, Hn; rewrite ?Hv; reflexivity]).
  - unfold Part000.Stop, Part000.SetOption.
    destruct (String.eqb value ""); cbn [Part000.w Part000.r];
      (rewrite Hs; [rewrite !sapp_assoc; reflexivity
                   | rewrite !no_newline_app, Hn; rewrite ?Hv; reflexivity]).
  - apply lines_writes. rewrite no_newline_app, no_newline_go_text by exact Hm. reflexivity.
Qed.

(** Witness: the button [Clear Hash], which takes no value. *)
Lemma unterminated_commands_merge_witness :
  lines (w_out (ClientGo.w (ClientGo.Stop
    (ClientGo.SetOption (ClientGo.set_w (ClientGo.NewClient (mkReader [] EOF) empty_writer) empty_writer)
       "Clear Hash" ""))))
  = [(if String.eqb "" "" then "setoption name " ++ "Clear Hash" ++ "stop"
      else "setoption name " ++ "Clear Hash" ++ " value " ++ "" ++ "stop")%string].
Proof.
  exact (proj1 (unterminated_commands_merge (ClientGo.NewClient (mkReader [] EOF) empty_writer)
    (Part000.NewClient (mkReader [] EOF) empty_writer) "Clear Hash" ""
    (ClientGo.mkGoParameters [] false false 0%Z 0%Z 0%Z 0%Z 0%Z 0%Z 0%Z 0%Z 0%Z)
    eq_refl eq_refl eq_refl)).
Defined.

(** [PositionFEN] of [src/uci/client.go] and of [src/unnamed/part_000]
    writes exactly one line, newline included: [position fen], the FEN,
    and the moves after [moves] when there are any. *)
Theorem position_fen_one_line (c : ClientGo.Client) (d : Part000.Client)
    (fen : string) (moves : list string) :
  no_newline fen = true -> no_newline (join " " moves) = true ->
  let line := ("position fen " ++ fen ++
               (if (0 <? List.length moves)%nat then " moves " ++ join " " moves else ""))%string in
  no_newline line = true
  /\ w_out (ClientGo.w (ClientGo.PositionFEN (ClientGo.set_w c empty_writer) fen moves))
     = (line ++ newline)%string
  /\ w_out (Part000.w (Part000.PositionFEN (Part000.mkClient (Part000.r d) empty_writer) fen moves))
     = (line ++ newline)%string.
Proof.
  intros Hf Hm. cbv zeta.
  unfold ClientGo.PositionFEN, Part000.PositionFEN; cbn [ClientGo.w ClientGo.set_w Part000.w].
  destruct (0 <? List.length moves)%nat.
  - split; [rewrite !no_newline_app, Hf, Hm; reflexivity|].
    change (fprint (fprint (fprint empty_writer ("position fen " ++ fen)) (" moves " ++ join " " moves)) newline)
      with (mkWriter ((("position fen " ++ fen) ++ (" moves " ++ join " " moves)) ++ newline) None).
    cbn [w_out]. rewrite !sapp_assoc. split; reflexivity.
  - split; [rewrite !no_newline_app, Hf; reflexivity|].
    change (fprint (fprint empty_writer ("position fen " ++ fen)) newline)
      with (mkWriter (("position fen " ++ fen) ++ newline) None).
    cbn [w_out]. rewrite sapp_nil_r, !sapp_assoc. split; reflexivity.
Qed.

(** Witness: the start position as a FEN, one move. *)
Lemma position_fen_one_line_witness :
  let line := ("position fen " ++ "rnbqkbnr/pppppppp/8/8/8/8/PPPPPPPP/RNBQKBNR w KQkq - 0 1" ++
               (if (0 <? List.length ["e2e4"])%nat then " moves " ++ join " " ["e2e4"] else ""))%string in
  no_newline line = true
  /\ w_out (ClientGo.w (ClientGo.PositionFEN
       (ClientGo.set_w (ClientGo.NewClient (mkReader [] EOF) empty_writer) empty_writer)
       "rnbqkbnr/pppppppp/8/8/8/8/PPPPPPPP/RNBQKBNR w KQkq - 0 1" ["e2e4"]))
     = (line ++ newline)%string
  /\ w_out (Part000.w (Part000.PositionFEN
       (Part000.mkClient (Part000.r (Part000.NewClient (mkReader [] EOF) empty_writer)) empty_writer)
       "rnbqkbnr/pppppppp/8/8/8/8/PPPPPPPP/RNBQKBNR w KQkq - 0 1" ["e2e4"]))
     = (line ++ newline)%string.
Proof.
  exact (position_fen_one_line (ClientGo.NewClient (mkReader [] EOF) empty_writer)
    (Part000.NewClient (mkReader [] EOF) empty_writer)
    "rnbqkbnr/pppppppp/8/8/8/8/PPPPPPPP/RNBQKBNR w KQkq - 0 1" ["e2e4"] eq_refl eq_refl).
Defined.

(** ** Lines the option parsers refuse outright *)

(** Both [UnmarshalText] of [src/uci/option.go] and of [src/uci/uci.go]
    refuse a line of fewer than 5 tokens, or one that does not start with
    [option name], with their [todo] error and the receiver unchanged. *)
Theorem unmarshal_rejects_unchanged (o : OptionGo.Option) (u : UciGo.Option) (text : string) :
  ((List.length (fields text) < 5)%nat \/ firstn 2 (fields text) <> ["option"; "name"]) ->
  OptionGo.UnmarshalText o text = (o, Some OptionGo.todo)
  /\ UciGo.UnmarshalText u text = (u, Some UciGo.todo).
Proof.
  unfold OptionGo.UnmarshalText, UciGo.UnmarshalText.
  destruct (fields text) as [|f0 [|f1 rest]]; intros H; [split; reflexivity|split; reflexivity|].
  destruct (Nat.ltb_spec (List.length (f0 :: f1 :: rest)) 5) as [Hl|Hl]; [split; reflexivity|].
  destruct H as [H|H]; [lia|].
  destruct (String.eqb_spec f0 "option") as [->|]; [|split; reflexivity].
  destruct (String.eqb_spec f1 "name") as [->|]; [|split; reflexivity].
  simpl in H. contradiction.
Qed.

(** Witness: an [id] line given to the parsers. *)
Lemma unmarshal_rejects_unchanged_witness :
  OptionGo.UnmarshalText OptionGo.zero "id name Stockfish 16 by T"
  = (OptionGo.zero, Some OptionGo.todo).
Proof.
  assert (H : firstn 2 (fields "id name Stockfish 16 by T") <> ["option"; "name"])
    by discriminate.
  exact (proj1 (unmarshal_rejects_unchanged OptionGo.zero UciGo.zero "id name Stockfish 16 by T"
    (or_intror H))).
Defined.

(** ** The last line of [Debug], and the reading of part_000's [Go] *)

Lemma fprint_ok (w : writer) (s : string) :
  w_err w = None -> fprint w s = mkWriter (w_out w ++ s) None.
Proof. destruct w as [out err]; simpl; intros ->; reflexivity. Qed.

(** [Debug] of [src/uci/client.go] and of [src/unnamed/part_000], on a
    working writer, appends [debug on] and then [debug off] as two lines
    when its argument is true, and [debug off] alone otherwise: its last
    line is always [debug off], and the engine is left with debugging
    off. *)
Theorem debug_always_ends_off (c : ClientGo.Client) (d : Part000.Client) (on : bool) :
  w_err (ClientGo.w c) = None -> w_err (Part000.w d) = None ->
  w_out (ClientGo.w (ClientGo.Debug c on))
    = (w_out (ClientGo.w c) ++ (if on then "debug on" ++ newline else "") ++ "debug off" ++ newline)%string
  /\ w_out (Part000.w (Part000.Debug d on))
    = (w_out (Part000.w d) ++ (if on then "debug on" ++ newline else "") ++ "debug off" ++ newline)%string.
Proof.
  intros Hc Hd. unfold ClientGo.Debug, Part000.Debug, fprintln.
  destruct c as [rd [out err] nm au opts res]; destruct d as [rd' [out' err']];
    simpl in Hc, Hd; subst err err'; cbn [ClientGo.w ClientGo.set_w Part000.w].
  destruct on; split;
    rewrite ?fprint_ok by reflexivity; cbn [w_out]; rewrite ?sapp_assoc; reflexivity.
Qed.

(** Witness: [Debug(true)] after [uci] was written. *)
Lemma debug_always_ends_off_witness :
  w_out (ClientGo.w (ClientGo.Debug
      (ClientGo.NewClient (mkReader [] EOF) (mkWriter ("uci" ++ newline) None)) true))
  = (w_out (ClientGo.w (ClientGo.NewClient (mkReader [] EOF) (mkWriter ("uci" ++ newline) None)))
     ++ (if true then "debug on" ++ newline else "") ++ "debug off" ++ newline)%string.
Proof.
  exact (proj1 (debug_always_ends_off
    (ClientGo.NewClient (mkReader [] EOF) (mkWriter ("uci" ++ newline) None))
    (Part000.NewClient (mkReader [] EOF) empty_writer) true eq_refl eq_refl)).
Defined.

(** [Go] of [src/unnamed/part_000] reads lines until one is exactly
    [bestmove]; over an engine that sends one line per [Read] it leaves
    [c.r] after that line, and when no line is exactly [bestmove] (an
    engine's [bestmove e2e4] is not) it reads the whole input. *)
Theorem part000_go_reads_to_bestmove (c : Part000.Client) (s : Part000.Search)
    (pre post : list string) (e : stream_end) (b : bool) :
  ~ In "bestmove" pre -> Forall engine_line pre -> Forall engine_line post ->
  Part000.r (fst (Part000.Go (Part000.mkClient (line_reader (pre ++ "bestmove" :: post) e b)
                                (Part000.w c)) s)) = line_reader post e b
  /\ Part000.r (fst (Part000.Go (Part000.mkClient (line_reader pre e b) (Part000.w c)) s))
     = line_reader [] e b.
Proof.
  intros Hin Hpre Hpost. unfold Part000.Go; cbn [Part000.r].
  split.
  - destruct (scanned_at pre "bestmove" post e b (engine_app _ _ _ Hpre engine_bestmove Hpost))
      as [s1 [sc [s2 [Hsc [Hm Ho]]]]].
    destruct (scanned (line_reader (pre ++ "bestmove" :: post) e b)) as [steps fin].
    cbn [fst] in Hsc. subst steps. cbv beta iota.
    rewrite go_loop_app by (rewrite Hm; exact Hin).
    change (Part000.go_loop (("bestmove", sc) :: s2) fin) with sc.
    unfold obs in Ho. injection Ho as Hr _. exact Hr.
  - destruct (scanned_whole pre e b Hpre) as [Hl Ho]. rewrite lines_read_unfold in Hl.
    destruct (scanned (line_reader pre e b)) as [steps fin]. cbn [fst snd] in Hl, Ho. cbv beta iota.
    rewrite <- (app_nil_r steps), go_loop_app by (rewrite Hl; exact Hin).
    cbn [Part000.go_loop]. unfold obs in Ho. injection Ho as Hr _. exact Hr.
Qed.

(** Witness: an engine's reply, and a later command's output, all read. *)
Lemma part000_go_reads_to_bestmove_witness :
  let s := Part000.mkSearch [] false false 0%Z 0%Z 0%Z 0%Z 0%Z 0%Z 0%Z 3%Z 0%Z in
  Part000.r (fst (Part000.Go (Part000.mkClient
    (line_reader ["info depth 1 pv e2e4"; "bestmove e2e4"; "readyok"] EOF false) empty_writer) s))
  = line_reader [] EOF false.
Proof.
  assert (H : ~ In "bestmove" ["info depth 1 pv e2e4"; "bestmove e2e4"; "readyok"])
    by (simpl; intuition discriminate).
  exact (proj2 (part000_go_reads_to_bestmove (Part000.NewClient (mkReader [] EOF) empty_writer)
    (Part000.mkSearch [] false false 0%Z 0%Z 0%Z 0%Z 0%Z 0%Z 0%Z 3%Z 0%Z)
    ["info depth 1 pv e2e4"; "bestmove e2e4"; "readyok"] [] EOF false H
    ltac:(engines_tac) ltac:(engines_tac))).
Defined.

(** ** What [option.go] leaves in the receiver when it fails *)

Lemma walk_stop (k1 : list string) (key v : string) (k2 : list string) (o : OptionGo.Option) :
  snd (OptionGo.walk o (k1 ++ [key])) = None ->
  OptionGo.walk_step (fst (OptionGo.walk o (k1 ++ [key]))) key v = None ->
  OptionGo.walk o (k1 ++ key :: v :: k2) = (fst (OptionGo.walk o (k1 ++ [key])), Some OptionGo.todo).
Proof.
  revert o; induction k1 as [|a k1 IH]; intros o H1 H2.
  - change (fst (OptionGo.walk o ([] ++ [key]))) with o in H2 |- *.
    simpl app. rewrite walk_cons, H2. reflexivity.
  - destruct k1 as [|b k1']; simpl app in *; rewrite !walk_cons in *;
      (destruct (OptionGo.walk_step o a _) as [o'|] eqn:E; [apply IH; assumption|discriminate H1]).
Qed.

(** [UnmarshalText] of [src/uci/option.go] does not roll back: when the
    first malformed bound is the [min] or [max] key followed by a
    non-integer, it returns the error with the receiver already updated,
    its name set and every key before the bad one applied, as the closed
    form gives them over the tokens up to that key. *)
Theorem option_unmarshal_keeps_partial (o : OptionGo.Option) (text : string)
    (k1 : list string) (key v : string) (k2 : list string) :
  (5 <= List.length (fields text))%nat ->
  firstn 2 (fields text) = ["option"; "name"] ->
  OptionSpec.from_type (skipn 2 (fields text)) = (k1 ++ key :: v :: k2)%list ->
  (key = "min" \/ key = "max") -> atoi v = None ->
  ~ OptionSpec.bad_bound (k1 ++ [key]) ->
  let k := (k1 ++ [key])%list in
  OptionGo.UnmarshalText o text =
  (OptionGo.mkOption (join " " (OptionSpec.before_type (skipn 2 (fields text))))
     (last (OptionSpec.values_after "type" k) (OptionGo.Type_ o))
     (last (OptionSpec.values_after "default" k) (OptionGo.Default o))
     (last (OptionSpec.parsed_ints (OptionSpec.values_after "min" k)) (OptionGo.Min o))
     (last (OptionSpec.parsed_ints (OptionSpec.values_after "max" k)) (OptionGo.Max o))
     (OptionGo.Vars o ++ OptionSpec.values_after "var" k), Some OptionGo.todo).
Proof.
  intros Hlen Hpre Hk Hkey Hv Hgood. cbv zeta.
  destruct (firstn_two _ Hpre) as [rest Hf].
  unfold OptionGo.UnmarshalText. rewrite Hf in *. simpl skipn in *.
  destruct (Nat.ltb_spec (List.length ("option" :: "name" :: rest)) 5) as [H|H];
    [simpl in *; lia|].
  cbn [String.eqb negb]. simpl (negb _).
  rewrite name_scan_split, Hk.
  set (o1 := OptionGo.mkOption (join " " (OptionSpec.before_type rest)) (OptionGo.Type_ o)
               (OptionGo.Default o) (OptionGo.Min o) (OptionGo.Max o) (OptionGo.Vars o)).
  assert (Hok : snd (OptionGo.walk o1 (k1 ++ [key])) = None).
  { destruct (snd (OptionGo.walk o1 (k1 ++ [key]))) eqn:E; [|reflexivity].
    exfalso. apply Hgood. apply (walk_fails _ o1). rewrite E. discriminate. }
  rewrite walk_stop; [|exact Hok|apply walk_step_fails; split; assumption].
  rewrite (option_walk_closed _ _ Hok). reflexivity.
Qed.

(** Witness: the type, default and [min] are kept when [max] is bad. *)
Lemma option_unmarshal_keeps_partial_witness :
  OptionGo.UnmarshalText OptionGo.zero "option name Hash type spin default 16 min 1 max big var x"
  = (OptionGo.mkOption "Hash" "spin" "16" 1%Z 0%Z [], Some OptionGo.todo).
Proof.
  assert (Hg : ~ OptionSpec.bad_bound ["type"; "spin"; "default"; "16"; "min"; "1"; "max"]).
  { intros Hb. apply (walk_fails _ OptionGo.zero) in Hb. apply Hb. reflexivity. }
  exact (option_unmarshal_keeps_partial OptionGo.zero
    "option name Hash type spin default 16 min 1 max big var x"
    ["type"; "spin"; "default"; "16"; "min"; "1"] "max" "big" ["var"; "x"]
    ltac:(vm_compute; lia) eq_refl eq_refl (or_intror eq_refl) eq_refl Hg).
Defined.

(** ** A session of [src/uci/uci.go]: [UCI], then [IsReady] *)

Lemma line_err_cons (mid : list string) (x : string) (post : list string) (e : stream_end) (b : bool) :
  line_err (mid ++ x :: post) e b = None.
Proof. unfold line_err. destruct mid; cbn [app]; rewrite andb_false_r; reflexivity. Qed.

(** With a working writer and an engine that sends one line per [Read],
    [UCI] followed by [IsReady] on the engine's replies [pre], [uciok],
    [mid], [readyok], [post] (no [uciok] or malformed option in [pre], no
    [readyok] in [mid]) returns [nil] twice, writes the two commands as
    two lines, keeps what the handshake set, and leaves [post] unread in
    [c.r]. *)
Theorem uci_session_handshake_then_ready (c : UciGo.Client) (pre mid post : list string)
    (e : stream_end) (b : bool) :
  w_err (UciGo.w c) = None -> uci_plain pre -> ~ In "readyok" mid ->
  Forall engine_line pre -> Forall engine_line mid -> Forall engine_line post ->
  let '(c1, err1) := UciGo.UCI (UciGo.set_r c (line_reader (pre ++ "uciok" :: mid ++ "readyok" :: post) e b)) in
  let '(c2, err2) := UciGo.IsReady c1 in
  err1 = None /\ err2 = None
  /\ w_out (UciGo.w c2) = (w_out (UciGo.w c) ++ "uci" ++ newline ++ "isready" ++ newline)%string
  /\ UciGo.r c2 = line_reader post e b
  /\ UciGo.CName c2 = last (id_values "id name " pre) (UciGo.CName c)
  /\ UciGo.Author c2 = last (id_values "id author " pre) (UciGo.Author c)
  /\ UciGo.Options c2 = (UciGo.Options c ++ parsed_options pre)%list.
Proof.
  intros Hw Hp Hin Hpre Hmid Hpost.
  pose proof (engine_app mid "readyok" post Hmid engine_readyok Hpost) as Hrest.
  destruct (scanned_at pre "uciok" (mid ++ "readyok" :: post) e b (engine_app _ _ _ Hpre engine_uciok Hrest))
    as [s1 [s [s2 [Hsc [Hm Ho]]]]].
  destruct (scanned_at mid "readyok" post e b Hrest) as [t1 [t [t2 [Htc [Htm Hto]]]]].
  destruct c as [rd [out werr] nm au opts res]; cbn [UciGo.w w_err] in Hw; subst werr.
  unfold UciGo.UCI, UciGo.send, write; cbn [UciGo.w UciGo.set_w UciGo.set_r UciGo.r w_err w_out].
  destruct (scanned (line_reader (pre ++ "uciok" :: mid ++ "readyok" :: post) e b)) as [steps fin].
  cbn [fst] in Hsc. subst steps. cbv beta iota.
  rewrite uci_loop_app by (rewrite Hm; exact Hp). rewrite Hm, uci_loop_uciok.
  unfold obs in Ho. injection Ho as Hr He. rewrite Hr, He, line_err_cons. cbv beta iota.
  unfold UciGo.IsReady, UciGo.send, write, uci_absorb;
    cbn [UciGo.w UciGo.set_w UciGo.set_r UciGo.r UciGo.CName UciGo.Author UciGo.Options w_err w_out].
  destruct (scanned (line_reader (mid ++ "readyok" :: post) e b)) as [steps fin'].
  cbn [fst] in Htc. subst steps. cbv beta iota.
  rewrite uci_isready_loop_app by (rewrite Htm; exact Hin).
  rewrite (proj1 (uci_isready_readyok _ _ _)).
  unfold obs in Hto. injection Hto as Hr' _. cbv beta iota.
  cbn [UciGo.w UciGo.set_w UciGo.set_r UciGo.r UciGo.CName UciGo.Author UciGo.Options w_out].
  rewrite Hr'. repeat split. rewrite !sapp_assoc. reflexivity.
Qed.

(** Witness: an engine that sends its name, [uciok], a debug line and
    [readyok], the end of the stream with the last line. *)
Lemma uci_session_handshake_then_ready_witness :
  let c := UciGo.NewClient (mkReader [] EOF) empty_writer in
  let '(c1, err1) := UciGo.UCI (UciGo.set_r c (line_reader (["id name E"] ++ "uciok" :: ["info string hi"] ++ "readyok" :: []) EOF true)) in
  let '(c2, err2) := UciGo.IsReady c1 in
  err1 = None /\ err2 = None
  /\ w_out (UciGo.w c2) = (w_out (UciGo.w c) ++ "uci" ++ newline ++ "isready" ++ newline)%string
  /\ UciGo.r c2 = line_reader [] EOF true
  /\ UciGo.CName c2 = last (id_values "id name " ["id name E"]) (UciGo.CName c)
  /\ UciGo.Author c2 = last (id_values "id author " ["id name E"]) (UciGo.Author c)
  /\ UciGo.Options c2 = (UciGo.Options c ++ parsed_options ["id name E"])%list.
Proof.
  exact (uci_session_handshake_then_ready (UciGo.NewClient (mkReader [] EOF) empty_writer)
    ["id name E"] ["info string hi"] [] EOF true eq_refl ltac:(plain_tac)
    ltac:(simpl; intuition discriminate) ltac:(engines_tac) ltac:(engines_tac) ltac:(engines_tac)).
Defined.

(** ** A reply delivered in one [Read] *)

Lemma uci_loop_keeps (P : Scanner -> Prop) (c : UciGo.Client) (steps : list (string * Scanner))
    (fin : Scanner) :
  Forall (fun p => P (snd p)) steps -> P fin ->
  P (snd (fst (UciGo.uci_loop c steps fin))) /\ UciGo.w (fst (fst (UciGo.uci_loop c steps fin))) = UciGo.w c.
Proof.
  intros Hs Hf. revert c; induction Hs as [|[l s] steps Hl _ IH]; intros c; [split; [exact Hf|reflexivity]|].
  cbn [snd] in Hl. cbn [UciGo.uci_loop].
  assert (Hk : forall k, UciGo.w k = UciGo.w c ->
    P (snd (fst (UciGo.uci_loop k steps fin))) /\ UciGo.w (fst (fst (UciGo.uci_loop k steps fin))) = UciGo.w c).
  { intros k Hk. destruct (IH k) as [H1 H2]. split; [exact H1|rewrite H2; exact Hk]. }
  destruct (has_prefix l "id name "); [apply Hk; destruct c; reflexivity|].
  destruct (has_prefix l "id author "); [apply Hk; destruct c; reflexivity|].
  destruct (has_prefix l "option ").
  { destruct (UciGo.UnmarshalText UciGo.zero l) as [o [err|]];
      [split; [exact Hl|reflexivity]|apply Hk; destruct c; reflexivity]. }
  destruct (String.eqb l "uciok"); [split; [exact Hl|reflexivity]|apply Hk; reflexivity].
Qed.

Lemma client_loop_keeps (P : Scanner -> Prop) (c : ClientGo.Client) (steps : list (string * Scanner))
    (fin : Scanner) :
  Forall (fun p => P (snd p)) steps -> P fin -> P (snd (fst (ClientGo.uci_loop c steps fin))).
Proof.
  intros Hs Hf. revert c; induction Hs as [|[l s] steps Hl _ IH]; intros c; [exact Hf|].
  cbn [snd] in Hl. cbn [ClientGo.uci_loop].
  repeat match goal with
    | |- context [if ?b then _ else _] => destruct b
    | |- context [match ?x with pair _ _ => _ end] => destruct x as [? [?|]]
    end; first [exact Hl | apply IH].
Qed.

Lemma scanned_empty (e : stream_end) :
  fst (scanned (mkReader [] e)) = [] /\ Err (snd (scanned (mkReader [] e))) = scan_err e.
Proof. destruct e; split; reflexivity. Qed.

Lemma uci_one_read (c : UciGo.Client) (t : string) (e : stream_end) :
  w_err (UciGo.w c) = None -> t <> "" -> (String.length t <= 4096)%nat ->
  UciGo.r (fst (UciGo.UCI (UciGo.set_r c (mkReader [t] e)))) = mkReader [] e
  /\ w_err (UciGo.w (fst (UciGo.UCI (UciGo.set_r c (mkReader [t] e))))) = None.
Proof.
  intros Hw Hne Hl. pose proof (scanned_one_read t e Hne Hl) as H.
  destruct c as [rd [out werr] nm au opts res]; cbn [UciGo.w w_err] in Hw; subst werr.
  unfold UciGo.UCI, UciGo.send, write; cbn [UciGo.w UciGo.set_w UciGo.set_r UciGo.r w_err w_out].
  destruct (scanned (mkReader [t] e)) as [steps fin]. destruct H as [Hs Hf]. cbv beta iota.
  match goal with |- context [UciGo.uci_loop ?k steps fin] =>
    destruct (uci_loop_keeps (fun s => s_r s = mkReader [] e) k steps fin Hs Hf) as [H1 H2];
    destruct (UciGo.uci_loop k steps fin) as [[c2 s] err] end.
  cbn [fst snd] in H1, H2. destruct c2. cbn [UciGo.set_r UciGo.r UciGo.w fst] in *.
  rewrite H2. split; [exact H1|reflexivity].
Qed.

Lemma client_one_read (d : ClientGo.Client) (t : string) (e : stream_end) :
  t <> "" -> (String.length t <= 4096)%nat ->
  ClientGo.r (fst (ClientGo.UCI (ClientGo.set_r d (mkReader [t] e)))) = mkReader [] e.
Proof.
  intros Hne Hl. pose proof (scanned_one_read t e Hne Hl) as H.
  destruct d as [rd wr nm au opts res].
  unfold ClientGo.UCI; cbn [ClientGo.w ClientGo.set_w ClientGo.set_r ClientGo.r].
  destruct (scanned (mkReader [t] e)) as [steps fin]. destruct H as [Hs Hf]. cbv beta iota.
  match goal with |- context [ClientGo.uci_loop ?k steps fin] =>
    pose proof (client_loop_keeps (fun s => s_r s = mkReader [] e) k steps fin Hs Hf) as H1;
    destruct (ClientGo.uci_loop k steps fin) as [[c2 s] err] end.
  exact H1.
Qed.

Lemma uci_isready_empty (c : UciGo.Client) (e : stream_end) :
  w_err (UciGo.w c) = None -> UciGo.r c = mkReader [] e -> snd (UciGo.IsReady c) = scan_err e.
Proof.
  intros Hw Hr. destruct c as [rd [out werr] nm au opts res]; cbn [UciGo.w UciGo.r w_err] in Hw, Hr.
  subst werr rd. unfold UciGo.IsReady, UciGo.send, write; cbn [UciGo.w UciGo.set_w UciGo.r w_err w_out].
  destruct (scanned_empty e) as [H1 H2]. destruct (scanned (mkReader [] e)) as [steps fin].
  cbn [fst snd] in H1, H2. subst steps. exact H2.
Qed.

Lemma client_isready_empty (d : ClientGo.Client) (e : stream_end) :
  ClientGo.r d = mkReader [] e -> snd (ClientGo.IsReady d) = scan_err e.
Proof.
  intros Hr. destruct d as [rd wr nm au opts res]; cbn [ClientGo.r] in Hr. subst rd.
  unfold ClientGo.IsReady; cbn [ClientGo.w ClientGo.set_w ClientGo.r].
  destruct (scanned_empty e) as [H1 H2]. destruct (scanned (mkReader [] e)) as [steps fin].
  cbn [fst snd] in H1, H2. subst steps. exact H2.
Qed.

(** When the engine's reply arrives in one [Read] (as from a
    [bytes.Reader] or a [strings.Reader] holding fewer bytes than the
    scanner's first buffer of 4096), the scanner of [UCI] takes all of
    it into its buffer at the first [Scan], and the buffer is dropped
    when [UCI] returns: [UCI] of [src/uci/uci.go] (with a working writer)
    and of [src/uci/client.go] leave [c.r] empty whatever they return,
    and a following [IsReady] sees the end of the input at once and
    returns the scanner's error, [nil] at end of file, even when the
    reply held a [readyok] after [uciok]. *)
Theorem one_read_reply_drained (c : UciGo.Client) (d : ClientGo.Client) (t : string) (e : stream_end) :
  w_err (UciGo.w c) = None -> t <> "" -> (String.length t <= 4096)%nat ->
  UciGo.r (fst (UciGo.UCI (UciGo.set_r c (mkReader [t] e)))) = mkReader [] e
  /\ ClientGo.r (fst (ClientGo.UCI (ClientGo.set_r d (mkReader [t] e)))) = mkReader [] e
  /\ snd (UciGo.IsReady (fst (UciGo.UCI (UciGo.set_r c (mkReader [t] e))))) = scan_err e
  /\ snd (ClientGo.IsReady (fst (ClientGo.UCI (ClientGo.set_r d (mkReader [t] e))))) = scan_err e.
Proof.
  intros Hw Hne Hl.
  destruct (uci_one_read c t e Hw Hne Hl) as [H1 H2].
  pose proof (client_one_read d t e Hne Hl) as H3.
  split; [exact H1|]. split; [exact H3|]. split.
  - exact (uci_isready_empty _ e H2 H1).
  - exact (client_isready_empty _ e H3).
Qed.

(** Witness: the reply [id name E], [uciok], [readyok] in one [Read]. *)
Lemma one_read_reply_drained_witness :
  let t := unlines ["id name E"; "uciok"; "readyok"] in
  let c := UciGo.NewClient (mkReader [] EOF) empty_writer in
  let d := ClientGo.NewClient (mkReader [] EOF) empty_writer in
  UciGo.r (fst (UciGo.UCI (UciGo.set_r c (mkReader [t] EOF)))) = mkReader [] EOF
  /\ ClientGo.r (fst (ClientGo.UCI (ClientGo.set_r d (mkReader [t] EOF)))) = mkReader [] EOF
  /\ snd (UciGo.IsReady (fst (UciGo.UCI (UciGo.set_r c (mkReader [t] EOF))))) = scan_err EOF
  /\ snd (ClientGo.IsReady (fst (ClientGo.UCI (ClientGo.set_r d (mkReader [t] EOF))))) = scan_err EOF.
Proof.
  exact (one_read_reply_drained (UciGo.NewClient (mkReader [] EOF) empty_writer)
    (ClientGo.NewClient (mkReader [] EOF) empty_writer) (unlines ["id name E"; "uciok"; "readyok"]) EOF
    eq_refl ltac:(discriminate) ltac:(cbn; lia)).
Defined.
